(** * Oraflow ADB bridge: a model of [mcp_servers/adb_bridge.py]

    The development follows the source file top to bottom:

    - [PyStr]: the [str] methods the bridge calls ([strip], [split]);
    - [Re]: the part of Python's [re] module that the bridge's patterns
      exercise (parser, flags, backtracking matcher, [search]);
    - [Bridge]: the [ADBBridge] class, one definition per method, over an
      explicit object state and an explicit environment that answers the
      calls to the outside world (websocket, subprocesses, clock);
    - the properties of the classifier and of the session life cycle.

    Strings are Rocq strings: one [ascii] per character, read as the code
    points 0..255. *)

From Stdlib Require Import String Ascii List Bool Arith ZArith Lia PrimFloat DecimalString.
Import ListNotations.
Open Scope list_scope.
Open Scope string_scope.

(** ** Outcomes of Python calls *)

Inductive exn : Type :=
| re_error (msg : string) (pos : nat)   (* re.error / re.PatternError *)
| IndexError
| ConnectError                          (* websockets.connect failed *)
| TransportError                        (* connection.send / close failed *)
| TimeoutExpired                        (* subprocess.TimeoutExpired *)
| OSError                               (* subprocess could not be spawned *)
| KeyError (key : string)
| TypeError
| AttributeError
| KeyboardInterrupt                     (* the operator's Ctrl-C *)
| CancelledError                        (* asyncio.CancelledError *)
| NotModelled.                          (* a construct outside this model *)

Inductive outcome (A : Type) : Type :=
| Ret (a : A)
| Raise (e : exn).
Arguments Ret {A} a.
Arguments Raise {A} e.

Definition returns {A} (o : outcome A) : Prop := exists a, o = Ret a.

(** ** Python [str] *)

Module PyStr.

Definition code (c : ascii) : nat := nat_of_ascii c.

Definition between (lo hi : nat) (c : ascii) : bool :=
  Nat.leb lo (code c) && Nat.leb (code c) hi.

(** [str.isspace] on one character, for code points below 256:
    TAB..CR, FS..US, SPACE, NEL and NBSP. *)
Definition is_space (c : ascii) : bool :=
  between 9 13 c || between 28 32 c || Nat.eqb (code c) 133 || Nat.eqb (code c) 160.

(** Simple lower-casing of one code point (A-Z and the Latin-1 capitals). *)
Definition lower (c : ascii) : ascii :=
  if between 65 90 c || (between 192 222 c && negb (Nat.eqb (code c) 215))
  then ascii_of_nat (code c + 32) else c.

(** Simple upper-casing; the two Latin-1 letters whose capital lies above
    255 keep their value. *)
Definition upper (c : ascii) : ascii :=
  if between 97 122 c || (between 224 254 c && negb (Nat.eqb (code c) 247))
  then ascii_of_nat (code c - 32) else c.

Definition is_empty (s : string) : bool :=
  match s with EmptyString => true | String _ _ => false end.

(** Truth value of a [str]: non-empty. *)
Definition truthy (s : string) : bool := negb (is_empty s).

Fixpoint lstrip (s : string) : string :=
  match s with
  | EmptyString => EmptyString
  | String c r => if is_space c then lstrip r else s
  end.

Fixpoint rstrip (s : string) : string :=
  match s with
  | EmptyString => EmptyString
  | String c r =>
      let r' := rstrip r in
      if is_space c && is_empty r' then EmptyString else String c r'
  end.

(** [s.strip()] *)
Definition strip (s : string) : string := rstrip (lstrip s).

(** The text before and after the first occurrence of [sep]. *)
Fixpoint cut (sep : ascii) (s : string) : option (string * string) :=
  match s with
  | EmptyString => None
  | String c r =>
      if Ascii.eqb c sep then Some (EmptyString, r)
      else match cut sep r with
           | Some (a, b) => Some (String c a, b)
           | None => None
           end
  end.

(** [s.split(sep, maxsplit)] for a one-character separator. *)
Fixpoint split_max (sep : ascii) (maxsplit : nat) (s : string) : list string :=
  match maxsplit with
  | O => [s]
  | S m => match cut sep s with
           | None => [s]
           | Some (a, b) => a :: split_max sep m b
           end
  end.

(** [s.split(sep)]: no limit; a string has at most [length s] separators. *)
Definition split (sep : ascii) (s : string) : list string :=
  split_max sep (String.length s) s.

(** [s.split()]: fields separated by runs of white space. *)
Fixpoint fields_aux (cur : option string) (s : string) : list string :=
  match s with
  | EmptyString => match cur with Some w => [w] | None => [] end
  | String c r =>
      if is_space c
      then match cur with Some w => w :: fields_aux None r | None => fields_aux None r end
      else fields_aux (Some (match cur with Some w => w ++ String c "" | None => String c "" end)) r
  end.

Definition fields (s : string) : list string := fields_aux None s.

(** [sep.join(parts)] *)
Fixpoint join (sep : string) (parts : list string) : string :=
  match parts with
  | [] => ""
  | [p] => p
  | p :: rest => p ++ sep ++ join sep rest
  end.

Definition space : ascii := ascii_of_nat 32.
Definition tab : ascii := ascii_of_nat 9.
Definition newline : ascii := ascii_of_nat 10.

End PyStr.

Definition bind {A B} (o : outcome A) (f : A -> outcome B) : outcome B :=
  match o with
  | Ret a => f a
  | Raise e => Raise e
  end.

Declare Scope outcome_scope.
Delimit Scope outcome_scope with outcome.
Notation "x <- c ;; k" := (bind c (fun x => k))
  (at level 61, c at next level, right associativity) : outcome_scope.
Notation "' pat <- c ;; k" := (bind c (fun x => match x with pat => k end))
  (at level 61, pat pattern, c at next level, right associativity) : outcome_scope.

(** ** Python [re]: parser

    The grammar covers what the bridge's patterns are written with:
    literals, escaped punctuation, [.], character sets with ranges, capturing
    groups, alternation and the greedy repeats [*], [+], [?].  The errors are
    those of [sre_parse]; any other construct answers [NotModelled]. *)

Module Re.
Import PyStr.
#[local] Open Scope outcome_scope.

Inductive regex : Type :=
| Empty
| Lit (c : ascii)
| AnyChar
| CharSet (negate : bool) (ranges : list (ascii * ascii))
| Cat (r1 r2 : regex)
| Branch (r1 r2 : regex)
| Repeat (lo : nat) (hi : option nat) (r : regex)
| Group (n : nat) (r : regex).

Record Pattern : Type := mkPattern {
  pattern : string;
  ignorecase : bool;
  prog : regex;
  groups : nat
}.

Record pstate : Type := mkP { src : string; pos : nat; ngroups : nat }.

Definition is_repeat (r : regex) : bool :=
  match r with Repeat _ _ _ => true | _ => false end.

Definition is_ascii_alnum (c : ascii) : bool :=
  between 48 57 c || between 65 90 c || between 97 122 c.

Definition is_char (c : ascii) (lit : string) : bool :=
  match lit with
  | String d EmptyString => Ascii.eqb c d
  | _ => false
  end.

Definition seq (items : list regex) : regex := fold_right Cat Empty items.

(** One member of a character set: a plain character or an escaped
    punctuation sign. *)
Definition set_char (start : nat) (s : string) (p : nat)
  : outcome (ascii * string * nat) :=
  match s with
  | EmptyString => Raise (re_error "unterminated character set" start)
  | String c r =>
      if is_char c "\" then
        match r with
        | EmptyString => Raise (re_error "bad escape (end of pattern)" p)
        | String e r' =>
            if is_ascii_alnum e then Raise NotModelled else Ret (e, r', p + 2)
        end
      else Ret (c, r, p + 1)
  end.

Fixpoint parse_set (fuel start : nat) (acc : list (ascii * ascii))
    (s : string) (p : nat) : outcome (list (ascii * ascii) * string * nat) :=
  match fuel with
  | O => Raise NotModelled
  | S f =>
      match s with
      | EmptyString => Raise (re_error "unterminated character set" start)
      | String c r =>
          if is_char c "]" && negb (Nat.eqb (List.length acc) 0)
          then Ret (rev acc, r, p + 1)
          else
            '(x, r1, p1) <- set_char start s p ;;
            match r1 with
            | String d r2 =>
                if is_char d "-" then
                  match r2 with
                  | EmptyString =>
                      Raise (re_error "unterminated character set" start)
                  | String e r3 =>
                      if is_char e "]"
                      then Ret (rev ((d, d) :: (x, x) :: acc), r3, p1 + 2)
                      else
                        '(y, r4, p4) <- set_char start r2 (p1 + 1) ;;
                        if Nat.ltb (code y) (code x)
                        then Raise (re_error ("bad character range " ++ String x (String d (String y ""))) p)
                        else parse_set f start ((x, y) :: acc) r4 p4
                  end
                else parse_set f start ((x, x) :: acc) r1 p1
            | EmptyString => Raise (re_error "unterminated character set" start)
            end
      end
  end.

Definition repeat_bounds (c : ascii) : nat * option nat :=
  if is_char c "*" then (0, None)
  else if is_char c "+" then (1, None)
  else (0, Some 1).

Fixpoint parse_alt (fuel : nat) (st : pstate) : outcome (regex * pstate) :=
  match fuel with
  | O => Raise NotModelled
  | S f =>
      '(items, st1) <- parse_seq f [] st ;;
      match src st1 with
      | String c r =>
          if is_char c "|" then
            '(rest, st2) <- parse_alt f (mkP r (pos st1 + 1) (ngroups st1)) ;;
            Ret (Branch (seq items) rest, st2)
          else Ret (seq items, st1)
      | EmptyString => Ret (seq items, st1)
      end
  end

with parse_seq (fuel : nat) (acc : list regex) (st : pstate)
  : outcome (list regex * pstate) :=
  match fuel with
  | O => Raise NotModelled
  | S f =>
      match src st with
      | EmptyString => Ret (rev acc, st)
      | String c r =>
          let here := pos st in
          let st1 := mkP r (here + 1) (ngroups st) in
          if is_char c "|" || is_char c ")" then Ret (rev acc, st)
          else if is_char c "\" then
            match r with
            | EmptyString => Raise (re_error "bad escape (end of pattern)" here)
            | String e r' =>
                if is_ascii_alnum e then Raise NotModelled
                else parse_seq f (Lit e :: acc) (mkP r' (here + 2) (ngroups st))
            end
          else if is_char c "[" then
            let '(neg, r1, p1) :=
              match r with
              | String d r' =>
                  if is_char d "^" then (true, r', here + 2) else (false, r, here + 1)
              | EmptyString => (false, r, here + 1)
              end in
            '(ranges, r2, p2) <- parse_set (S (String.length r1)) here [] r1 p1 ;;
            parse_seq f (CharSet neg ranges :: acc) (mkP r2 p2 (ngroups st))
          else if is_char c "*" || is_char c "+" || is_char c "?" then
            match acc with
            | [] => Raise (re_error "nothing to repeat" here)
            | item :: acc' =>
                if is_repeat item then Raise (re_error "multiple repeat" here)
                else
                  match r with
                  | String d _ =>
                      if is_char d "?" || is_char d "+" then Raise NotModelled
                      else let '(lo, hi) := repeat_bounds c in
                           parse_seq f (Repeat lo hi item :: acc') st1
                  | EmptyString =>
                      let '(lo, hi) := repeat_bounds c in
                      parse_seq f (Repeat lo hi item :: acc') st1
                  end
            end
          else if is_char c "{" || is_char c "^" || is_char c "$" then
            Raise NotModelled
          else if is_char c "." then parse_seq f (AnyChar :: acc) st1
          else if is_char c "(" then
            match r with
            | String d _ =>
                if is_char d "?" then Raise NotModelled
                else
                  let g := S (ngroups st) in
                  '(body, st2) <- parse_alt f (mkP r (here + 1) g) ;;
                  match src st2 with
                  | String e r3 =>
                      if is_char e ")"
                      then parse_seq f (Group g body :: acc)
                             (mkP r3 (pos st2 + 1) (ngroups st2))
                      else Raise (re_error "missing ), unterminated subpattern" here)
                  | EmptyString =>
                      Raise (re_error "missing ), unterminated subpattern" here)
                  end
            | EmptyString =>
                Raise (re_error "missing ), unterminated subpattern" here)
            end
          else parse_seq f (Lit c :: acc) st1
      end
  end.

(** [re.compile(pattern, flags)]; the only flag in use is [re.IGNORECASE]. *)
Definition compile (pat : string) (ic : bool) : outcome Pattern :=
  '(r, st) <- parse_alt (2 * String.length pat + 2) (mkP pat 0 0) ;;
  match src st with
  | EmptyString => Ret (mkPattern pat ic r (ngroups st))
  | String _ _ => Raise (re_error "unbalanced parenthesis" (pos st))
  end.

(** ** Python [re]: backtracking matcher *)

Definition caps : Type := list (nat * string).

Definition result : Type := option (string * caps).

Definition cont : Type := string -> caps -> result.

Definition matcher : Type := string -> caps -> cont -> result.

Fixpoint set_cap (n : nat) (v : string) (c : caps) : caps :=
  match c with
  | [] => [(n, v)]
  | (m, w) :: rest => if Nat.eqb m n then (n, v) :: rest else (m, w) :: set_cap n v rest
  end.

Fixpoint get_cap (n : nat) (c : caps) : option string :=
  match c with
  | [] => None
  | (m, w) :: rest => if Nat.eqb m n then Some w else get_cap n rest
  end.

Definition char_eq (ic : bool) (p x : ascii) : bool :=
  if ic then Ascii.eqb (lower x) (lower p) else Ascii.eqb x p.

Definition in_ranges (ranges : list (ascii * ascii)) (x : ascii) : bool :=
  existsb (fun r => Nat.leb (code (fst r)) (code x) && Nat.leb (code x) (code (snd r)))
          ranges.

Definition in_set (ic : bool) (ranges : list (ascii * ascii)) (x : ascii) : bool :=
  if ic
  then in_ranges ranges x || in_ranges ranges (lower x) || in_ranges ranges (upper x)
  else in_ranges ranges x.

(** The text consumed between [s] and its suffix [s']. *)
Definition consumed (s s' : string) : string :=
  substring 0 (String.length s - String.length s') s.

(** Greedy iterations beyond the minimum: take one more while the body
    matches and advances, otherwise go on with the rest of the pattern. *)
Fixpoint rep_more (body : matcher) (fuel : nat) (extra : option nat)
    (s : string) (c : caps) (k : cont) : result :=
  match fuel with
  | O => k s c
  | S f =>
      let allowed := match extra with Some O => false | _ => true end in
      let extra' := match extra with Some n => Some (Nat.pred n) | None => None end in
      if allowed then
        match body s c (fun s' c' =>
                 if Nat.ltb (String.length s') (String.length s)
                 then rep_more body f extra' s' c' k else None) with
        | Some r => Some r
        | None => k s c
        end
      else k s c
  end.

(** The mandatory iterations. *)
Fixpoint rep_need (body : matcher) (n : nat) (after : matcher)
    (s : string) (c : caps) (k : cont) : result :=
  match n with
  | O => after s c k
  | S n' => body s c (fun s' c' => rep_need body n' after s' c' k)
  end.

Definition rep (body : matcher) (lo : nat) (hi : option nat) : matcher :=
  fun s c k =>
    rep_need body lo
      (fun s' c' k' =>
         rep_more body (String.length s') 
                  (match hi with Some h => Some (h - lo) | None => None end) s' c' k')
      s c k.

Fixpoint run (ic : bool) (r : regex) {struct r} : matcher :=
  match r with
  | Empty => fun s c k => k s c
  | Lit p => fun s c k =>
      match s with
      | String x s' => if char_eq ic p x then k s' c else None
      | EmptyString => None
      end
  | AnyChar => fun s c k =>
      match s with
      | String x s' => if Ascii.eqb x newline then None else k s' c
      | EmptyString => None
      end
  | CharSet neg ranges => fun s c k =>
      match s with
      | String x s' => if xorb neg (in_set ic ranges x) then k s' c else None
      | EmptyString => None
      end
  | Cat r1 r2 => fun s c k => run ic r1 s c (fun s' c' => run ic r2 s' c' k)
  | Branch r1 r2 => fun s c k =>
      match run ic r1 s c k with
      | Some res => Some res
      | None => run ic r2 s c k
      end
  | Repeat lo hi r1 => rep (run ic r1) lo hi
  | Group n r1 => fun s c k =>
      run ic r1 s c (fun s' c' => k s' (set_cap n (consumed s s') c'))
  end.

(** A match object: where it starts and ends, and the groups. *)
Record Match : Type := mkMatch {
  m_start : nat;
  m_end : nat;
  m_groups : caps
}.

Definition accept : cont := fun s c => Some (s, c).

(** [pattern.match] at the head of [s], [s] being the text from [start]. *)
Definition match_here (p : Pattern) (start : nat) (s : string) : option Match :=
  match run (ignorecase p) (prog p) s [] accept with
  | Some (s', c) =>
      Some (mkMatch start (start + (String.length s - String.length s')) c)
  | None => None
  end.

Fixpoint search_from (p : Pattern) (start : nat) (s : string) : option Match :=
  match match_here p start s with
  | Some m => Some m
  | None =>
      match s with
      | EmptyString => None
      | String _ s' => search_from p (S start) s'
      end
  end.

(** [pattern.search(s)]: the leftmost match, or [None]. *)
Definition search (p : Pattern) (s : string) : option Match := search_from p 0 s.

(** [m.group(n)] for [n >= 1]; [None] for a group that took no part. *)
Definition group (m : Match) (n : nat) : option string := get_cap n (m_groups m).

(** Truth value of [pattern.search(s)]. *)
Definition found (p : Pattern) (s : string) : bool :=
  match search p s with Some _ => true | None => false end.

End Re.

(** ** Values, dictionaries and the outside world *)

(** The values the bridge stores in its message dictionaries. *)
Inductive pyval : Type :=
| VNone
| VStr (s : string)
| VFloat (f : float).

(** A Python [dict] with [str] keys: insertion-ordered, one entry per key. *)
Definition dict (V : Type) : Type := list (string * V).

Fixpoint dict_set {V} (k : string) (v : V) (d : dict V) : dict V :=
  match d with
  | [] => [(k, v)]
  | (k', v') :: rest =>
      if String.eqb k' k then (k', v) :: rest else (k', v') :: dict_set k v rest
  end.

Fixpoint dict_get {V} (k : string) (d : dict V) : option V :=
  match d with
  | [] => None
  | (k', v') :: rest => if String.eqb k' k then Some v' else dict_get k rest
  end.

(** A dict display [{k1: v1, k2: v2, ...}]. *)
Definition dict_of {V} (entries : list (string * V)) : dict V :=
  fold_left (fun d kv => dict_set (fst kv) (snd kv) d) entries [].

Definition keys {V} (d : dict V) : list string := map fst d.

Definition opt_str (o : option string) : pyval :=
  match o with Some s => VStr s | None => VNone end.

(** Handles of a websocket connection and of a child process. *)
Definition conn : Type := nat.
Definition proc : Type := nat.

Inductive level : Type := DEBUG | INFO | WARNING | ERROR.

(** What the bridge does to the outside world, as it would be observed. *)
Inductive action : Type :=
| Log (lvl : level) (msg : string)
| WsConnect (uri : string)
| WsSend (c : conn) (payload : dict pyval)     (* send(json.dumps(payload)) *)
| WsClose (c : conn)
| RunAdbDevices
| Popen (cmd : list string)
| Terminate (p : proc)
| Wait (p : proc)
| Kill (p : proc)
| Sleep.

(** [subprocess.CompletedProcess] *)
Record completed : Type := mkCompleted {
  returncode : Z;
  stdout : string;
  stderr : string
}.

(** One turn of the monitoring loop as the child process shows it: it is
    alive ([poll()] is [None]) and [readline()] answers a line (empty at end
    of file) or fails. *)
Inductive tick : Type :=
| Line (s : string)
| ReadFails.

(** The environment answers each call to the outside in turn; a script
    that has run out answers with the default written next to it.  Each
    call can fail only in the way its library documents. *)
Record Env : Type := mkEnv {
  ws_connects : list (option conn);   (* None: ConnectError; default None *)
  ws_sends : list bool;               (* false: TransportError; default true *)
  ws_closes : list bool;              (* false: TransportError; default true *)
  adb_devices : list (option completed);    (* None: OSError; default None *)
  popens : list (option proc);              (* None: OSError; default None *)
  adb_output : list tick;             (* then the process has exited *)
  waits : list bool;                  (* false: TimeoutExpired; default true *)
  clock : list float;                 (* default 0 *)
  idle_sleeps : nat;          (* one-second sleeps of [run] before Ctrl-C *)
  trace : list action                       (* newest first *)
}.

Definition next {A} (script : list A) (default : A) : A * list A :=
  match script with
  | [] => (default, [])
  | a :: rest => (a, rest)
  end.

(** [str(e)], shortened to the name of the failure. *)
Definition exn_str (e : exn) : string :=
  match e with
  | re_error msg p =>
      msg ++ " at position " ++ NilZero.string_of_uint (Nat.to_uint p)
  | IndexError => "list index out of range"
  | ConnectError => "connect failed"
  | TransportError => "connection closed"
  | TimeoutExpired => "timed out"
  | OSError => "os error"
  | KeyError k => k
  | TypeError => "type error"
  | AttributeError => "attribute error"
  | KeyboardInterrupt => ""
  | CancelledError => ""
  | NotModelled => "not modelled"
  end.

(** [except Exception] catches neither [KeyboardInterrupt] nor
    [asyncio.CancelledError], which derive from [BaseException]. *)
Definition is_Exception (e : exn) : bool :=
  match e with
  | KeyboardInterrupt | CancelledError => false
  | _ => true
  end.

(** ** The [ADBBridge] class *)

Module Bridge.
Import PyStr.
#[local] Open Scope outcome_scope.

Record ADBBridge : Type := mkBridge {
  desktop_ws_port : Z;
  desktop_ws_uri : string;
  desktop_connection : option conn;
  is_monitoring : bool;
  device_id : option string;
  adb_process : option proc;
  error_patterns : dict Re.Pattern;
  permission_patterns : dict Re.Pattern
}.

(** The display of [self.error_patterns]: name and pattern text of each
    entry, in the order written; all are compiled with [re.IGNORECASE]. *)
Definition error_pattern_sources : list (string * string) :=
  [ ("fatal_exception", "FATAL EXCEPTION: (.+)");
    ("null_pointer", "java\.lang\.NullPointerException");
    ("out_of_memory", "OutOfMemoryError");
    ("permission_denied", "Permission denied");
    ("network_error", "java\.net\.ConnectException");
    ("storage_error", "java\.io\.FileNotFoundException");
    ("crash_anr", "ANR in (.+)");
    ("native_crash", "*** FATAL EXCEPTION IN SYSTEM PROCESS");
    ("security_exception", "SecurityException");
    ("illegal_state", "IllegalStateException");
    ("runtime_exception", "RuntimeException") ].

Definition permission_pattern_sources : list (string * string) :=
  [ ("camera", "camera|CAMERA");
    ("location", "location|gps|GPS|ACCESS_FINE_LOCATION");
    ("storage", "storage|external|READ_EXTERNAL_STORAGE|WRITE_EXTERNAL_STORAGE");
    ("network", "network|internet|INTERNET|ACCESS_NETWORK_STATE");
    ("phone_state", "phone_state|READ_PHONE_STATE");
    ("contacts", "contacts|READ_CONTACTS|WRITE_CONTACTS");
    ("sms", "sms|SEND_SMS|READ_SMS") ].

(** Evaluation of a dict display whose values are [re.compile(text,
    re.IGNORECASE)]: entry after entry; the first failure ends it. *)
Fixpoint compile_entries (entries : list (string * string)) (d : dict Re.Pattern)
  : outcome (dict Re.Pattern) :=
  match entries with
  | [] => Ret d
  | (name, text) :: rest =>
      p <- Re.compile text true ;;
      compile_entries rest (dict_set name p d)
  end.

(** The object as [__init__] leaves it once both tables are built. *)
Definition new_bridge (port : Z) (eps pps : dict Re.Pattern) : ADBBridge :=
  {| desktop_ws_port := port;
     desktop_ws_uri := "ws://localhost:" ++ NilZero.string_of_int (Z.to_int port);
     desktop_connection := None;
     is_monitoring := false;
     device_id := None;
     adb_process := None;
     error_patterns := eps;
     permission_patterns := pps |}.

Definition __init__ (desktop_ws_port : Z) : outcome ADBBridge :=
  eps <- compile_entries error_pattern_sources [] ;;
  pps <- compile_entries permission_pattern_sources [] ;;
  Ret (new_bridge desktop_ws_port eps pps).

(** [ADBBridge()] *)
Definition default_port : Z := 6544.

(** *** [parse_log_line] *)

Definition Event : Type := dict pyval.

Definition mem (x : string) (l : list string) : bool := existsb (String.eqb x) l.

Definition _get_error_severity (error_type : string) : string :=
  let critical_errors := ["fatal_exception"; "native_crash"; "out_of_memory"] in
  let permission_errors := ["permission_denied"] in
  if mem error_type critical_errors then "critical"
  else if mem error_type permission_errors then "high"
  else "medium".

(** [for name, pattern in table.items(): if pattern.search(message): ...
    break]: the name of the first entry whose pattern is found. *)
Fixpoint first_match (table : dict Re.Pattern) (message : string) : option string :=
  match table with
  | [] => None
  | (name, p) :: rest =>
      if Re.found p message then Some name else first_match rest message
  end.

(** [l[n]] *)
Definition index {A} (l : list A) (n : nat) : outcome A :=
  match nth_error l n with
  | Some a => Ret a
  | None => Raise IndexError
  end.

Definition opt_eqb (o : option string) (s : string) : bool :=
  match o with Some x => String.eqb x s | None => false end.

(** The body of the [try] block, for a line already split in [parts]. *)
Definition parse_parts (self : ADBBridge) (line : string) (parts : list string)
  : outcome (option Event) :=
  p0 <- index parts 0 ;;
  p1 <- index parts 1 ;;
  p2 <- index parts 2 ;;
  let timestamp := p0 ++ " " ++ p1 ++ " " ++ p2 in
  message <- (if Nat.ltb 5 (List.length parts) then index parts 5 else Ret "") ;;
  let error_type := first_match (error_patterns self) message in
  let permission_type :=
    if opt_eqb error_type "permission_denied"
    then first_match (permission_patterns self) message
    else None in
  package_re <- Re.compile "at ([a-zA-Z0-9_\.]+)\." false ;;
  let package_name :=
    match Re.search package_re message with
    | Some m => Re.group m 1
    | None => None
    end in
  match error_type with
  | Some name =>
      if truthy name then
        Ret (Some (dict_of
          [ ("type", VStr "android_error");
            ("timestamp", VStr timestamp);
            ("device_id", opt_str (device_id self));
            ("error_type", VStr name);
            ("permission_type", opt_str permission_type);
            ("package_name", opt_str package_name);
            ("message", VStr (strip message));
            ("full_log_line", VStr (strip line));
            ("severity", VStr (_get_error_severity name)) ]))
      else Ret None
  | None => Ret None
  end.

(** [parse_log_line(self, line)]: [Ret None] is Python's [None]; the
    [logger.debug] of the handler is below the configured level and leaves
    no record. *)
Definition parse_log_line (self : ADBBridge) (line : string) : outcome (option Event) :=
  if negb (truthy (strip line)) then Ret None
  else
    let parts := split_max space 5 line in
    if Nat.ltb (List.length parts) 6 then Ret None
    else
      match parse_parts self line parts with
      | Ret r => Ret r
      | Raise e => if is_Exception e then Ret None else Raise e
      end.

(** *** The object and the world as one state *)

Record state : Type := mkState { self : ADBBridge; env : Env }.

(** A method body: it may change the state and either returns or raises. *)
Definition M (A : Type) : Type := state -> outcome A * state.

Definition ret {A} (a : A) : M A := fun st => (Ret a, st).

Definition raise {A} (e : exn) : M A := fun st => (Raise e, st).

Definition mbind {A B} (m : M A) (f : A -> M B) : M B :=
  fun st =>
    match m st with
    | (Ret a, st') => f a st'
    | (Raise e, st') => (Raise e, st')
    end.

Declare Scope io_scope.
Delimit Scope io_scope with io.
Notation "x <- c ;; k" := (mbind c (fun x => k))
  (at level 61, c at next level, right associativity) : io_scope.
Notation "c ;; k" := (mbind c (fun _ => k))
  (at level 61, right associativity) : io_scope.

#[local] Open Scope io_scope.

(** [try: body except <kind>: handler] *)
Definition try_except {A} (catches : exn -> bool) (body : M A) (handler : exn -> M A)
  : M A :=
  fun st =>
    match body st with
    | (Raise e, st') => if catches e then handler e st' else (Raise e, st')
    | r => r
    end.

(** [try: body finally: cleanup] *)
Definition try_finally {A} (body : M A) (cleanup : M unit) : M A :=
  fun st =>
    let '(r, st1) := body st in
    match cleanup st1 with
    | (Ret _, st2) => (r, st2)
    | (Raise e, st2) => (Raise e, st2)
    end.

Definition is_TimeoutExpired (e : exn) : bool :=
  match e with TimeoutExpired => true | _ => false end.

Definition is_KeyboardInterrupt (e : exn) : bool :=
  match e with KeyboardInterrupt => true | _ => false end.

Definition lift {A} (o : outcome A) : M A := fun st => (o, st).

Definition get_self : M ADBBridge := fun st => (Ret (self st), st).

Definition update (f : ADBBridge -> ADBBridge) : M unit :=
  fun st => (Ret tt, mkState (f (self st)) (env st)).

Definition set_desktop_connection (c : option conn) (b : ADBBridge) : ADBBridge :=
  mkBridge (desktop_ws_port b) (desktop_ws_uri b) c (is_monitoring b)
           (device_id b) (adb_process b) (error_patterns b) (permission_patterns b).

Definition set_is_monitoring (v : bool) (b : ADBBridge) : ADBBridge :=
  mkBridge (desktop_ws_port b) (desktop_ws_uri b) (desktop_connection b) v
           (device_id b) (adb_process b) (error_patterns b) (permission_patterns b).

Definition set_device_id (d : option string) (b : ADBBridge) : ADBBridge :=
  mkBridge (desktop_ws_port b) (desktop_ws_uri b) (desktop_connection b)
           (is_monitoring b) d (adb_process b) (error_patterns b)
           (permission_patterns b).

Definition set_adb_process (p : option proc) (b : ADBBridge) : ADBBridge :=
  mkBridge (desktop_ws_port b) (desktop_ws_uri b) (desktop_connection b)
           (is_monitoring b) (device_id b) p (error_patterns b)
           (permission_patterns b).

(** *** Calls to the outside *)

Definition record (a : action) (e : Env) : Env :=
  mkEnv (ws_connects e) (ws_sends e) (ws_closes e) (adb_devices e) (popens e)
        (adb_output e) (waits e) (clock e) (idle_sleeps e) (a :: trace e).

Definition emit (a : action) : M unit :=
  fun st => (Ret tt, mkState (self st) (record a (env st))).

Definition logger (lvl : level) (msg : string) : M unit := emit (Log lvl msg).

Definition answer (ok : bool) : outcome unit :=
  if ok then Ret tt else Raise TransportError.

(** [await websockets.connect(uri)] *)
Definition websockets_connect (uri : string) : M conn :=
  fun st =>
    let e := record (WsConnect uri) (env st) in
    let '(r, rest) := next (ws_connects e) None in
    (match r with Some c => Ret c | None => Raise ConnectError end,
     mkState (self st)
       (mkEnv rest (ws_sends e) (ws_closes e) (adb_devices e) (popens e)
              (adb_output e) (waits e) (clock e) (idle_sleeps e) (trace e))).

(** [await connection.send(json.dumps(payload))] *)
Definition ws_send (c : conn) (payload : dict pyval) : M unit :=
  fun st =>
    let e := record (WsSend c payload) (env st) in
    let '(ok, rest) := next (ws_sends e) true in
    (answer ok,
     mkState (self st)
       (mkEnv (ws_connects e) rest (ws_closes e) (adb_devices e) (popens e)
              (adb_output e) (waits e) (clock e) (idle_sleeps e) (trace e))).

(** [await connection.close()] *)
Definition ws_close (c : conn) : M unit :=
  fun st =>
    let e := record (WsClose c) (env st) in
    let '(ok, rest) := next (ws_closes e) true in
    (answer ok,
     mkState (self st)
       (mkEnv (ws_connects e) (ws_sends e) rest (adb_devices e) (popens e)
              (adb_output e) (waits e) (clock e) (idle_sleeps e) (trace e))).

(** [subprocess.run(['adb', 'devices'], ...)] *)
Definition run_adb_devices : M completed :=
  fun st =>
    let e := record RunAdbDevices (env st) in
    let '(r, rest) := next (adb_devices e) None in
    (match r with Some res => Ret res | None => Raise OSError end,
     mkState (self st)
       (mkEnv (ws_connects e) (ws_sends e) (ws_closes e) rest (popens e)
              (adb_output e) (waits e) (clock e) (idle_sleeps e) (trace e))).

(** [subprocess.Popen(cmd, ...)] *)
Definition subprocess_Popen (cmd : list string) : M proc :=
  fun st =>
    let e := record (Popen cmd) (env st) in
    let '(r, rest) := next (popens e) None in
    (match r with Some p => Ret p | None => Raise OSError end,
     mkState (self st)
       (mkEnv (ws_connects e) (ws_sends e) (ws_closes e) (adb_devices e) rest
              (adb_output e) (waits e) (clock e) (idle_sleeps e) (trace e))).

(** [process.wait(timeout=5)] *)
Definition proc_wait (p : proc) : M unit :=
  fun st =>
    let e := record (Wait p) (env st) in
    let '(ok, rest) := next (waits e) true in
    ((if ok then Ret tt else Raise TimeoutExpired),
     mkState (self st)
       (mkEnv (ws_connects e) (ws_sends e) (ws_closes e) (adb_devices e) (popens e)
              (adb_output e) rest (clock e) (idle_sleeps e) (trace e))).

(** [time.time()] *)
Definition time_time : M float :=
  fun st =>
    let e := env st in
    let '(t, rest) := next (clock e) 0%float in
    (Ret t,
     mkState (self st)
       (mkEnv (ws_connects e) (ws_sends e) (ws_closes e) (adb_devices e) (popens e)
              (adb_output e) (waits e) rest (idle_sleeps e) (trace e))).

(** The lines the child process will still show; reading takes them. *)
Definition take_output : M (list tick) :=
  fun st =>
    let e := env st in
    (Ret (adb_output e),
     mkState (self st)
       (mkEnv (ws_connects e) (ws_sends e) (ws_closes e) (adb_devices e) (popens e)
              [] (waits e) (clock e) (idle_sleeps e) (trace e))).

Definition take_idle_sleeps : M nat :=
  fun st => (Ret (idle_sleeps (env st)), st).
(** *** The methods, in the order of the source *)

Definition connect_to_desktop : M unit :=
  try_except is_Exception
    (b <- get_self ;;
     c <- websockets_connect (desktop_ws_uri b) ;;
     update (set_desktop_connection (Some c)) ;;
     logger INFO ("Connected to OraFlow Desktop at " ++ desktop_ws_uri b) ;;
     ws_send c (dict_of
       [ ("type", VStr "adb_bridge_status");
         ("status", VStr "connected");
         ("message", VStr "ADB Bridge connected successfully") ]))
    (fun e =>
       logger ERROR ("Failed to connect to OraFlow Desktop: " ++ exn_str e) ;;
       raise e).

(** The device named by one line of [adb devices], if it names one. *)
Definition device_of_line (line : string) : option string :=
  if truthy (strip line) then
    match split tab line with
    | serial :: status :: _ => if String.eqb status "device" then Some serial else None
    | _ => None
    end
  else None.

Fixpoint devices_of_lines (lines : list string) : list string :=
  match lines with
  | [] => []
  | line :: rest =>
      match device_of_line line with
      | Some d => d :: devices_of_lines rest
      | None => devices_of_lines rest
      end
  end.

Definition get_connected_devices : M (list string) :=
  try_except is_Exception
    (result <- run_adb_devices ;;
     if Z.eqb (returncode result) 0 then
       let lines := tl (split newline (strip (stdout result))) in
       ret (devices_of_lines lines)
     else
       logger ERROR ("ADB devices command failed: " ++ stderr result) ;;
       ret [])
    (fun e =>
       logger ERROR ("Error getting connected devices: " ++ exn_str e) ;;
       ret []).

(** [repr] of a list of strings, for the log. *)
Definition repr_list (l : list string) : string :=
  "[" ++ join ", " (map (fun d => "'" ++ d ++ "'") l) ++ "]".

Definition select_device : M (option string) :=
  devices <- get_connected_devices ;;
  match devices with
  | [] => logger WARNING "No Android devices connected" ;; ret None
  | [d] => logger INFO ("Auto-selected device: " ++ d) ;; ret (Some d)
  | d :: _ =>
      logger INFO ("Multiple devices found: " ++ repr_list devices) ;;
      logger INFO ("Using first device: " ++ d) ;;
      ret (Some d)
  end.

Definition start_adb_logcat (device : string) : M (option proc) :=
  try_except is_Exception
    (let cmd := ["adb"; "-s"; device; "logcat"; "*:E"; "-v"; "threadtime"] in
     logger INFO ("Starting ADB logcat for device " ++ device) ;;
     logger INFO ("Command: " ++ join " " cmd) ;;
     p <- subprocess_Popen cmd ;;
     update (set_adb_process (Some p)) ;;
     ret (Some p))
    (fun e =>
       logger ERROR ("Failed to start ADB logcat: " ++ exn_str e) ;;
       ret None).

(** [d[k]] *)
Definition getitem (d : dict pyval) (k : string) : outcome pyval :=
  match dict_get k d with
  | Some v => Ret v
  | None => Raise (KeyError k)
  end.

(** [v[:n]] *)
Definition slice_to (n : nat) (v : pyval) : outcome string :=
  match v with
  | VStr s => Ret (substring 0 n s)
  | _ => Raise TypeError
  end.

(** A value inside an f-string; the digits of a float are not modelled. *)
Definition format (v : pyval) : string :=
  match v with
  | VStr s => s
  | VNone => "None"
  | VFloat _ => "<float>"
  end.

Definition send_error_to_desktop (error_data : Event) : M unit :=
  b <- get_self ;;
  match desktop_connection b with
  | None => logger WARNING "No connection to desktop, cannot send error"
  | Some c =>
      try_except is_Exception
        (let stamped := dict_set "source" (VStr "adb_bridge") error_data in
         now <- time_time ;;
         let stamped := dict_set "timestamp_sent" (VFloat now) stamped in
         ws_send c stamped ;;
         error_type <- lift (getitem stamped "error_type") ;;
         message <- lift (getitem stamped "message") ;;
         head <- lift (slice_to 50 message) ;;
         logger INFO ("Sent Android error to desktop: " ++ format error_type
                      ++ " - " ++ head ++ "..."))
        (fun e => logger ERROR ("Failed to send error to desktop: " ++ exn_str e))
  end.

Definition stop_adb_logcat : M unit :=
  b <- get_self ;;
  match adb_process b with
  | None => ret tt
  | Some p =>
      try_finally
        (try_except is_TimeoutExpired
           (emit (Terminate p) ;;
            proc_wait p ;;
            logger INFO "ADB logcat process stopped")
           (fun _ =>
              emit (Kill p) ;;
              logger WARNING "ADB logcat process killed"))
        (update (set_adb_process None))
  end.

(** One detected line of the loop. *)
Definition handle_line (line : string) : M unit :=
  if truthy line then
    b <- get_self ;;
    error_data <- lift (parse_log_line b line) ;;
    match error_data with
    | Some ev =>
        match ev with
        | [] => ret tt
        | _ :: _ =>
            error_type <- lift (getitem ev "error_type") ;;
            message <- lift (getitem ev "message") ;;
            head <- lift (slice_to 100 message) ;;
            logger INFO ("Detected Android error: " ++ format error_type
                         ++ " - " ++ head ++ "...") ;;
            send_error_to_desktop ev
        end
    | None => ret tt
    end
  else ret tt.

(** [while self.is_monitoring and self.adb_process.poll() is None: ...]
    over the turns the child process still has. *)
Fixpoint monitor_loop (ticks : list tick) : M unit :=
  b <- get_self ;;
  if negb (is_monitoring b) then ret tt
  else
    match ticks with
    | [] => ret tt
    | t :: rest =>
        line <- match t with
                | Line s => ret s
                | ReadFails => raise OSError
                end ;;
        handle_line line ;;
        emit Sleep ;;
        monitor_loop rest
    end.

Definition monitor_adb_logcat : M unit :=
  b <- get_self ;;
  match adb_process b with
  | None => logger ERROR "ADB process not started"
  | Some _ =>
      logger INFO "Starting ADB logcat monitoring..." ;;
      try_finally
        (try_except is_Exception
           (ticks <- take_output ;; monitor_loop ticks)
           (fun e => logger ERROR ("Error in ADB monitoring loop: " ++ exn_str e)))
        stop_adb_logcat
  end.

Definition stop_monitoring : M unit :=
  b <- get_self ;;
  if negb (is_monitoring b) then ret tt
  else
    update (set_is_monitoring false) ;;
    stop_adb_logcat ;;
    match desktop_connection b with
    | None => ret tt
    | Some c =>
        try_except is_Exception
          (ws_send c (dict_of
             [ ("type", VStr "adb_monitoring_status");
               ("status", VStr "stopped");
               ("message", VStr "ADB Bridge monitoring stopped") ]))
          (fun e => logger ERROR ("Failed to send stop status: " ++ exn_str e)) ;;
        try_except is_Exception
          (ws_close c ;;
           logger INFO "ADB Bridge stopped and disconnected from desktop")
          (fun e => logger ERROR ("Error closing desktop connection: " ++ exn_str e))
    end.

Definition opt_truthy (o : option string) : bool :=
  match o with Some s => truthy s | None => false end.

Definition start_monitoring : M unit :=
  b <- get_self ;;
  if is_monitoring b then logger WARNING "ADB Bridge is already monitoring"
  else
    try_except is_Exception
      (connect_to_desktop ;;
       d <- select_device ;;
       update (set_device_id d) ;;
       match d with
       | Some device =>
           if truthy device then
             p <- start_adb_logcat device ;;
             match p with
             | None => logger ERROR "Failed to start ADB logcat"
             | Some _ =>
                 update (set_is_monitoring true) ;;
                 b' <- get_self ;;
                 match desktop_connection b' with
                 | None => raise AttributeError
                 | Some c =>
                     ws_send c (dict_of
                       [ ("type", VStr "adb_monitoring_status");
                         ("status", VStr "active");
                         ("device_id", VStr device);
                         ("message", VStr ("Monitoring Android device: " ++ device)) ]) ;;
                     logger INFO ("ADB Bridge started - monitoring device: " ++ device) ;;
                     monitor_adb_logcat
                 end
             end
           else logger ERROR "No Android device available for monitoring"
       | None => logger ERROR "No Android device available for monitoring"
       end)
      (fun e =>
         logger ERROR ("Failed to start ADB Bridge: " ++ exn_str e) ;;
         stop_monitoring).

(** [while self.is_monitoring: await asyncio.sleep(1)], until the operator
    interrupts after [n] more sleeps.  The program runs under [asyncio.run]:
    on Ctrl-C the task is cancelled and the pending [await asyncio.sleep(1)]
    raises [asyncio.CancelledError] inside the coroutine. *)
Fixpoint idle_loop (n : nat) : M unit :=
  b <- get_self ;;
  if negb (is_monitoring b) then ret tt
  else
    match n with
    | O => raise CancelledError
    | S n' => emit Sleep ;; idle_loop n'
    end.

Definition run : M unit :=
  logger INFO "Starting MCP ADB Bridge..." ;;
  try_finally
    (try_except is_Exception
       (try_except is_KeyboardInterrupt
          (start_monitoring ;;
           n <- take_idle_sleeps ;;
           idle_loop n)
          (fun _ => logger INFO "Received keyboard interrupt, stopping..."))
       (fun e => logger ERROR ("Unexpected error: " ++ exn_str e)))
    stop_monitoring.

End Bridge.

(** ** Fixtures and the wording of the specification *)

Import PyStr Bridge.

(** The entries of a display that compile, in the order written.  No run of
    [__init__] builds this table; it gives the examples a concrete object. *)
Fixpoint compile_usable (entries : list (string * string)) (d : dict Re.Pattern)
  : dict Re.Pattern :=
  match entries with
  | [] => d
  | (name, text) :: rest =>
      match Re.compile text true with
      | Ret p => compile_usable rest (dict_set name p d)
      | Raise _ => compile_usable rest d
      end
  end.

(** A bridge object holding the rules that compile and every permission
    rule. *)
Definition sample_bridge : ADBBridge :=
  new_bridge default_port
    (compile_usable error_pattern_sources [])
    (compile_usable permission_pattern_sources []).

(** The same object with an open connection [c]. *)
Definition connected_bridge (c : conn) : ADBBridge :=
  set_desktop_connection (Some c) sample_bridge.

(** An environment in which nothing is scripted. *)
Definition quiet : Env := mkEnv [] [] [] [] [] [] [] [] 0 [].

(** The priority order of the error rules as the specification lists it. *)
Definition spec_rule_order : list string :=
  [ "fatal_exception"; "native_crash"; "out_of_memory"; "null_pointer";
    "permission_denied"; "network_error"; "storage_error"; "crash_anr";
    "security_exception"; "illegal_state"; "runtime_exception" ].

(** [needle in hay] *)
Definition contains (needle hay : string) : Prop :=
  exists pre post, hay = pre ++ needle ++ post.

(** Number of occurrences of a character. *)
Fixpoint count (c : ascii) (s : string) : nat :=
  match s with
  | EmptyString => 0
  | String x r => (if Ascii.eqb x c then 1 else 0) + count c r
  end.

(** Some character of [s] is not white space. *)
Fixpoint has_text (s : string) : bool :=
  match s with
  | EmptyString => false
  | String c r => negb (is_space c) || has_text r
  end.

(** A field of an event. *)
Definition field (k : string) (ev : Event) : option pyval := dict_get k ev.

(** The payloads handed to the transport, newest first. *)
Fixpoint sent (t : list action) : list (conn * dict pyval) :=
  match t with
  | [] => []
  | WsSend c payload :: rest => (c, payload) :: sent rest
  | _ :: rest => sent rest
  end.

Fixpoint warnings (t : list action) : list string :=
  match t with
  | [] => []
  | Log WARNING msg :: rest => msg :: warnings rest
  | _ :: rest => warnings rest
  end.

Fixpoint closed (t : list action) : list conn :=
  match t with
  | [] => []
  | WsClose c :: rest => c :: closed rest
  | _ :: rest => closed rest
  end.

Fixpoint spawned (t : list action) : list (list string) :=
  match t with
  | [] => []
  | Popen cmd :: rest => cmd :: spawned rest
  | _ :: rest => spawned rest
  end.

(** A continuation that accepts whatever is left. *)
Definition total (k : Re.cont) : Prop := forall s c, k s c <> None.

(** A line passes both guards of [parse_log_line], and [message] is its
    sixth part. *)
Definition parseable (line message : string) : Prop :=
  truthy (strip line) = true
  /\ exists p0 p1 p2 p3 p4, split_max space 5 line = [p0; p1; p2; p3; p4; message].

(** [permission_type] as the source computes it from the matched rule. *)
Definition permission_of (b : ADBBridge) (name message : string) : option string :=
  if String.eqb name "permission_denied"
  then first_match (permission_patterns b) message
  else None.

(** The event as [send_error_to_desktop] hands it to the transport. *)
Definition stamped (now : float) (ev : Event) : dict pyval :=
  dict_set "timestamp_sent" (VFloat now) (dict_set "source" (VStr "adb_bridge") ev).

(** The next reading of the clock. *)
Definition reading (e : Env) : float := fst (next (clock e) 0%float).

(** An event of the classifier, for the examples. *)
Definition sample_event : Event :=
  match parse_log_line sample_bridge
          "01-01 00:00:00.000 1-1/1 E AndroidRuntime: FATAL EXCEPTION: main" with
  | Ret (Some ev) => ev
  | _ => []
  end.

(** A session with connection [1] whose transport fails the next send. *)
Definition failing_transport : state :=
  mkState (connected_bridge 1) (mkEnv [] [false] [] [] [] [] [] [] 0 []).

(** The state once [send_error_to_desktop ev] has run. *)
Definition after_send (ev : Event) (st : state) : state :=
  snd (send_error_to_desktop ev st).

(** The answer of [adb devices] when no device is attached. *)
Definition no_device_listing : completed :=
  mkCompleted 0 ("List of devices attached" ++ String newline (String newline "")) "".

(** The desktop accepts the connection [c]; no device is attached. *)
Definition no_device_world (c : conn) : Env :=
  mkEnv [Some c] [] [] [Some no_device_listing] [] [] [] [] 0 [].

(** The answer of [adb devices] with one device attached. *)
Definition one_device_listing : completed :=
  mkCompleted 0
    ("List of devices attached" ++ String newline
       ("emulator-5554" ++ String tab ("device" ++ String newline (String newline ""))))
    "".

(** The desktop accepts connection [1], one device is attached, and the
    child process cannot be spawned. *)
Definition one_device_world : Env :=
  mkEnv [Some 1] [] [] [Some one_device_listing] [None] [] [] [] 0 [].

(** As before, but the child process [7] is spawned and the transport
    fails the second message, the status [active]. *)
Definition spawned_world : Env :=
  mkEnv [Some 1] [true; false] [] [Some one_device_listing] [Some 7] [] [] [] 0 [].

(** A whole session: the desktop accepts connection [1], one device is
    attached, the child process [7] prints one error line and exits, and the
    operator interrupts after two idle sleeps. *)
Definition interrupted_world : Env :=
  mkEnv [Some 1] [] [] [Some one_device_listing] [Some 7]
        [Line ("01-01 00:00:00.000 1-1/1 E AndroidRuntime: FATAL EXCEPTION: main"
               ++ String newline "")]
        [] [] 2 [].

(** An active session on the sample object, connection [1], with two
    readings of the clock to come. *)
Definition monitoring_session : state :=
  mkState (set_is_monitoring true (connected_bridge 1))
          (mkEnv [] [] [] [] [] [] [] [1.5%float; 2.5%float] 0 []).

(** Lines as the child process prints them: an error, a line that no rule
    matches, an empty line and a second error. *)
Definition sample_lines : list string :=
  [ "01-01 00:00:00.000 1-1/1 E AndroidRuntime: FATAL EXCEPTION: main"
      ++ String newline "";
    "01-01 00:00:01.000 1-1/1 E App: nothing of interest" ++ String newline "";
    "";
    "01-01 00:00:02.000 1-1/1 E App: Permission denied: android.permission.CAMERA"
      ++ String newline "" ].

(** A session in the active state: connection [1], child process [7]. *)
Definition active_session : state :=
  mkState (mkBridge default_port "ws://localhost:6544" (Some 1) true
             (Some "emulator-5554") (Some 7) [] [])
          quiet.

(** The session owns the child process: a handle is set only while
    monitoring. *)
Definition handle_owned (b : ADBBridge) : Prop :=
  is_monitoring b = false -> adb_process b = None.

(** Monitoring flag and process handle of the object. *)
Definition session (m : bool) (p : option proc) (b : ADBBridge) : Prop :=
  is_monitoring b = m /\ adb_process b = p.

(** A method run from an object satisfying [P] either returns [a] and
    leaves the object in [Q a], or raises [e] and leaves it in [R e]. *)
Definition triple {A} (P : ADBBridge -> Prop) (m : M A)
    (Q : A -> ADBBridge -> Prop) (R : exn -> ADBBridge -> Prop) : Prop :=
  forall st, P (self st) ->
    match m st with
    | (Ret a, st') => Q a (self st')
    | (Raise e, st') => R e (self st')
    end.

(** A computation that leaves the object alone and raises, if at all,
    something [except Exception] catches. *)
Definition env_only {A} (m : M A) : Prop :=
  forall st, self (snd (m st)) = self st
             /\ forall e, fst (m st) = Raise e -> is_Exception e = true.

(** The outcome of catching: nothing is raised. *)
Definition never : exn -> ADBBridge -> Prop := fun _ _ => False.

(** The cancellation of the task, with the object in [P]. *)
Definition cancelled (P : ADBBridge -> Prop) : exn -> ADBBridge -> Prop :=
  fun e b => e = CancelledError /\ P b.

(** What [except Exception] can catch, with the object in [P]. *)
Definition caught (P : ADBBridge -> Prop) : exn -> ADBBridge -> Prop :=
  fun e b => is_Exception e = true /\ P b.

(** [s.lower()] on code points below 256. *)
Fixpoint lower_str (s : string) : string :=
  match s with
  | EmptyString => EmptyString
  | String c r => String (lower c) (lower_str r)
  end.

(** [needle.lower() in hay.lower()]: some stretch of [hay] equals [needle]
    when case is ignored. *)
Definition contains_ci (needle hay : string) : Prop :=
  exists pre mid post, hay = pre ++ mid ++ post /\ lower_str mid = lower_str needle.

(** The pattern text with the escaping backslashes taken out. *)
Fixpoint unescape (text : string) : string :=
  match text with
  | EmptyString => EmptyString
  | String c r => if Re.is_char c "\" then unescape r else String c (unescape r)
  end.

(** The program of a pattern that spells [w] and goes on with [rest]. *)
Fixpoint lits_then (w : string) (rest : Re.regex) : Re.regex :=
  match w with
  | EmptyString => rest
  | String c r => Re.Cat (Re.Lit c) (lits_then r rest)
  end.

Definition lits (w : string) : Re.regex := lits_then w Re.Empty.

(** The program of [w1|w2|...]. *)
Fixpoint alts (ws : list string) : Re.regex :=
  match ws with
  | [] => Re.Empty
  | [w] => lits w
  | w :: rest => Re.Branch (lits w) (alts rest)
  end.

(** What is left of [s] after a head that spells [w]. *)
Fixpoint after_prefix (ic : bool) (w s : string) : option string :=
  match w with
  | EmptyString => Some s
  | String p w' =>
      match s with
      | EmptyString => None
      | String x s' => if Re.char_eq ic p x then after_prefix ic w' s' else None
      end
  end.

(** The program of [(.+)], first group, at the end of a pattern. *)
Definition rest_of_line : Re.regex :=
  Re.Cat (Re.Group 1 (Re.Cat (Re.Repeat 1 None Re.AnyChar) Re.Empty)) Re.Empty.

(** The error rules whose pattern ends in [(.+)], with the text before it. *)
Definition headed_rules : list (string * string) :=
  [ ("fatal_exception", "FATAL EXCEPTION: "); ("crash_anr", "ANR in ") ].

(** The compiled form of a pattern text of the catalog, for the examples. *)
Definition pattern_of (text : string) : Re.Pattern :=
  match Re.compile text true with
  | Ret p => p
  | Raise _ => Re.mkPattern text true Re.Empty 0
  end.

(** The ranges of the set [a-zA-Z0-9_\.] of the package pattern. *)
Definition package_class : list (ascii * ascii) :=
  [ ("a"%char, "z"%char); ("A"%char, "Z"%char); ("0"%char, "9"%char);
    ("_"%char, "_"%char); ("."%char, "."%char) ].

(** A character of that set. *)
Definition ident_char (c : ascii) : bool := Re.in_ranges package_class c.

(** The compiled pattern of [re.search(r'at ([a-zA-Z0-9_\.]+)\.', message)]. *)
Definition package_pattern : Re.Pattern :=
  Re.mkPattern "at ([a-zA-Z0-9_\.]+)\." false
    (lits_then "at "
       (Re.Cat (Re.Group 1
                  (Re.Cat (Re.Repeat 1 None (Re.CharSet false package_class))
                          Re.Empty))
               (lits ".")))
    1.

(** [package_name] as the source computes it from the message. *)
Definition package_of (message : string) : option string :=
  match Re.search package_pattern message with
  | Some m => Re.group m 1
  | None => None
  end.

Fixpoint all_chars (f : ascii -> bool) (s : string) : bool :=
  match s with
  | EmptyString => true
  | String c r => f c && all_chars f r
  end.

(** The dictionary [parse_log_line] returns for rule [name], written out. *)
Definition event_of (b : ADBBridge) (line timestamp message name : string) : Event :=
  [ ("type", VStr "android_error");
    ("timestamp", VStr timestamp);
    ("device_id", opt_str (device_id b));
    ("error_type", VStr name);
    ("permission_type", opt_str (permission_of b name message));
    ("package_name", opt_str (package_of message));
    ("message", VStr (strip message));
    ("full_log_line", VStr (strip line));
    ("severity", VStr (_get_error_severity name)) ].

(** One line of [adb devices] for an attached device. *)
Definition device_line (serial : string) : string :=
  serial ++ String tab "device".

(** The output of [adb devices] with these devices attached: the heading,
    one line per device, and an empty line. *)
Definition listing (serials : list string) : string :=
  join (String newline "") ("List of devices attached" :: map device_line serials)
  ++ String newline (String newline "").

(** The last character of [s] is not white space. *)
Fixpoint ends_text (s : string) : bool :=
  match s with
  | EmptyString => false
  | String c EmptyString => negb (is_space c)
  | String _ r => ends_text r
  end.

(** The next answer of [adb devices]. *)
Definition devices_answer (e : Env) : option completed :=
  fst (next (adb_devices e) None).

(** The next answers of [Popen], of [wait] and of [websockets.connect]. *)
Definition spawn_answer (e : Env) : option proc := fst (next (popens e) None).

Definition wait_answer (e : Env) : bool := fst (next (waits e) true).

Definition connect_answer (e : Env) : option conn := fst (next (ws_connects e) None).

(** The command line of [start_adb_logcat]. *)
Definition logcat_command (device : string) : list string :=
  ["adb"; "-s"; device; "logcat"; "*:E"; "-v"; "threadtime"].

(** The events the loop detects in a run of lines, in the order read. *)
Fixpoint classify_all (b : ADBBridge) (lines : list string) : list Event :=
  match lines with
  | [] => []
  | line :: rest =>
      match (if truthy line then parse_log_line b line else Ret None) with
      | Ret (Some (kv :: ev)) => (kv :: ev) :: classify_all b rest
      | _ => classify_all b rest
      end
  end.

(** The events as sent on connection [c], each stamped with the next
    reading of the clock. *)
Fixpoint stamp_all (c : conn) (readings : list float) (events : list Event)
  : list (conn * dict pyval) :=
  match events with
  | [] => []
  | ev :: rest => (c, stamped (hd 0%float readings) ev) :: stamp_all c (tl readings) rest
  end.


(** The event [parse_log_line] makes of a line on the sample object. *)
Definition event_on (line : string) : Event :=
  match parse_log_line sample_bridge line with
  | Ret (Some ev) => ev
  | _ => []
  end.



(** ** Lemmas on strings *)

Section Strings.

Lemma is_empty_true (s : string) : is_empty s = true <-> s = "".
Proof. destruct s; simpl; split; congruence. Qed.

Lemma has_text_app (a b : string) : has_text (a ++ b) = has_text a || has_text b.
Proof.
  induction a as [|c a IH]; simpl; [reflexivity|].
  rewrite IH. now rewrite orb_assoc.
Qed.

Lemma rstrip_empty (s : string) : is_empty (rstrip s) = negb (has_text s).
Proof.
  induction s as [|c s IH]; simpl; [reflexivity|].
  destruct (is_space c); simpl.
  - rewrite IH. destruct (has_text s); reflexivity.
  - reflexivity.
Qed.

Lemma lstrip_has_text (s : string) : has_text (lstrip s) = has_text s.
Proof.
  induction s as [|c s IH]; simpl; [reflexivity|].
  destruct (is_space c) eqn:E; simpl; [exact IH|].
  now rewrite E.
Qed.

(** [s.strip()] is empty exactly when [s] is all white space. *)
Lemma strip_empty (s : string) : is_empty (strip s) = negb (has_text s).
Proof. unfold strip. now rewrite rstrip_empty, lstrip_has_text. Qed.

Lemma cut_spec (sep : ascii) (s a b : string) :
  cut sep s = Some (a, b) -> s = a ++ String sep b.
Proof.
  revert a b. induction s as [|c s IH]; simpl; intros a b H; [discriminate|].
  destruct (Ascii.eqb c sep) eqn:E.
  - apply Ascii.eqb_eq in E. inversion H; subst. reflexivity.
  - destruct (cut sep s) as [[a' b']|]; [|discriminate].
    inversion H; subst. simpl. f_equal. now apply IH.
Qed.

Lemma cut_none (sep : ascii) (s : string) : cut sep s = None <-> count sep s = 0.
Proof.
  induction s as [|c s IH]; simpl; [tauto|].
  destruct (Ascii.eqb c sep); simpl.
  - split; discriminate.
  - destruct (cut sep s) as [[a b]|].
    + split; [discriminate|]. intros H. apply IH in H. discriminate.
    + split; [intros _; now apply IH | reflexivity].
Qed.

Lemma cut_count (sep : ascii) (s a b : string) :
  cut sep s = Some (a, b) -> count sep s = S (count sep b).
Proof.
  revert a b. induction s as [|c s IH]; simpl; intros a b H; [discriminate|].
  destruct (Ascii.eqb c sep).
  - inversion H; subst. reflexivity.
  - destruct (cut sep s) as [[a' b']|]; [|discriminate].
    inversion H; subst. simpl. now apply (IH a').
Qed.

(** [split] cuts at the first [n] separators: one part more than that. *)
Lemma split_max_length (sep : ascii) (n : nat) (s : string) :
  List.length (split_max sep n s) = S (Nat.min n (count sep s)).
Proof.
  revert s. induction n as [|n IH]; intros s; simpl; [reflexivity|].
  destruct (cut sep s) as [[a b]|] eqn:E.
  - simpl. rewrite IH. rewrite (cut_count _ _ _ _ E). reflexivity.
  - apply cut_none in E. rewrite E. reflexivity.
Qed.

(** The parts, joined again by the separator, are the line. *)
Lemma split_max_join (sep : ascii) (n : nat) (s : string) :
  join (String sep "") (split_max sep n s) = s.
Proof.
  revert s. induction n as [|n IH]; intros s; simpl; [reflexivity|].
  destruct (cut sep s) as [[a b]|] eqn:E; [|reflexivity].
  apply cut_spec in E. specialize (IH b).
  destruct (split_max sep n b) as [|p ps] eqn:Es.
  - pose proof (split_max_length sep n b) as L. rewrite Es in L. discriminate.
  - change (join (String sep "") (a :: p :: ps))
      with (a ++ String sep "" ++ join (String sep "") (p :: ps)).
    rewrite IH. subst s. reflexivity.
Qed.

Lemma has_text_last_part (sep : ascii) (ps : list string) (m : string) :
  has_text m = true -> has_text (join (String sep "") (ps ++ [m])%list) = true.
Proof.
  intros Hm. induction ps as [|p ps IH]; simpl; [exact Hm|].
  destruct (ps ++ [m])%list eqn:E.
  - destruct ps; discriminate.
  - rewrite has_text_app. simpl in *. rewrite IH. 
    destruct (has_text p), (is_space sep); reflexivity.
Qed.

Lemma contains_has_text (w m : string) :
  has_text w = true -> contains w m -> has_text m = true.
Proof.
  intros Hw (pre & post & ->). rewrite !has_text_app, Hw.
  now rewrite orb_true_r.
Qed.

End Strings.

(** ** Lemmas on the matcher *)

Section Matcher.

Lemma accept_total : total Re.accept.
Proof. intros s c. discriminate. Qed.

(** Once the mandatory iterations are done, a greedy repeat cannot make a
    match fail that the rest of the pattern accepts. *)
Lemma rep_more_total (body : Re.matcher) (fuel : nat) (extra : option nat)
    (s : string) (c : Re.caps) (k : Re.cont) :
  total k -> Re.rep_more body fuel extra s c k <> None.
Proof.
  intros Hk. destruct fuel as [|f]; simpl; [apply Hk|].
  destruct (match extra with Some 0 => false | _ => true end); [|apply Hk].
  destruct (body s c _); [discriminate | apply Hk].
Qed.

(** [search] looks at every start position: a match at the head of a
    suffix is enough. *)
Lemma search_from_suffix (p : Re.Pattern) (pre s : string) (n : nat) :
  Re.run (Re.ignorecase p) (Re.prog p) s [] Re.accept <> None ->
  Re.search_from p n (pre ++ s) <> None.
Proof.
  intros H. revert n. induction pre as [|x pre IH]; intros n.
  - simpl. destruct s; simpl; unfold Re.match_here;
      destruct (Re.run _ _ _ _ _) as [[s' c]|]; congruence.
  - simpl. destruct (Re.match_here p n (String x (pre ++ s))); [discriminate|].
    apply IH.
Qed.

Lemma found_in (p : Re.Pattern) (pre s : string) :
  Re.run (Re.ignorecase p) (Re.prog p) s [] Re.accept <> None ->
  Re.found p (pre ++ s) = true.
Proof.
  intros H. unfold Re.found, Re.search.
  pose proof (search_from_suffix p pre s 0 H) as N.
  destruct (Re.search_from p 0 (pre ++ s)); congruence.
Qed.

(** The text [FATAL EXCEPTION: foo] carries the [fatal_exception]
    signature wherever it stands in the message. *)
Lemma fatal_signature_found (fatal : Re.Pattern) (message : string) :
  Re.compile "FATAL EXCEPTION: (.+)" true = Ret fatal ->
  contains "FATAL EXCEPTION: foo" message ->
  Re.found fatal message = true.
Proof.
  intros Hc (pre & post & ->).
  vm_compute in Hc. injection Hc as <-.
  apply found_in. cbn -[Re.rep_more].
  apply rep_more_total. intros s c. cbn. discriminate.
Qed.

(** The substring [CAMERA] carries the [camera] signature. *)
Lemma camera_signature_found (cam : Re.Pattern) (message : string) :
  Re.compile "camera|CAMERA" true = Ret cam ->
  contains "CAMERA" message ->
  Re.found cam message = true.
Proof.
  intros Hc (pre & post & ->).
  vm_compute in Hc. injection Hc as <-.
  apply found_in. cbn. discriminate.
Qed.

(** The text [Permission denied] carries the [permission_denied]
    signature. *)
Lemma permission_signature_found (perm : Re.Pattern) (message : string) :
  Re.compile "Permission denied" true = Ret perm ->
  contains "Permission denied" message ->
  Re.found perm message = true.
Proof.
  intros Hc (pre & post & ->).
  vm_compute in Hc. injection Hc as <-.
  apply found_in. cbn. discriminate.
Qed.

(** [first_match] returns the first entry that is found, and only that. *)
Lemma first_match_spec (table : dict Re.Pattern) (message name : string) :
  first_match table message = Some name <->
  exists pre p post,
    table = (pre ++ (name, p) :: post)%list
    /\ Re.found p message = true
    /\ Forall (fun e => Re.found (snd e) message = false) pre.
Proof.
  induction table as [|[n q] table IH]; simpl.
  - split; [discriminate|]. intros (pre & p & post & E & _). destruct pre; discriminate.
  - destruct (Re.found q message) eqn:F.
    + split.
      * intros H. injection H as <-. exists [], q, table. auto.
      * intros (pre & p & post & E & Fp & Hpre).
        destruct pre as [|e pre]; simpl in E.
        -- injection E as -> _ _. reflexivity.
        -- injection E as <- _. inversion Hpre; subst. simpl in *. congruence.
    + rewrite IH. split.
      * intros (pre & p & post & -> & Fp & Hpre).
        exists ((n, q) :: pre)%list, p, post. repeat split; auto.
      * intros (pre & p & post & E & Fp & Hpre).
        destruct pre as [|e pre]; simpl in E.
        -- injection E as -> -> _. congruence.
        -- injection E as _ ->. inversion Hpre; subst. exists pre, p, post. auto.
Qed.

(** A table none of whose patterns is found, checked by computation. *)
Lemma none_found_of_forallb (table : dict Re.Pattern) (message : string) :
  forallb (fun e => negb (Re.found (snd e) message)) table = true ->
  Forall (fun e => Re.found (snd e) message = false) table.
Proof.
  intros H. apply Forall_forall. intros e I.
  rewrite forallb_forall in H. specialize (H e I).
  now apply negb_true_iff in H.
Qed.

Lemma first_match_skip (pre post : dict Re.Pattern) (name message : string)
    (p : Re.Pattern) :
  Forall (fun e => Re.found (snd e) message = false) pre ->
  Re.found p message = true ->
  first_match (pre ++ (name, p) :: post)%list message = Some name.
Proof.
  intros Hpre Hp. apply first_match_spec. exists pre, p, post. auto.
Qed.

End Matcher.

(** ** The classifier *)

Section Classifier.

Lemma package_pattern_compiles :
  exists p, Re.compile "at ([a-zA-Z0-9_\.]+)\." false = Ret p.
Proof. vm_compute. eexists. reflexivity. Qed.

Lemma truthy_strip (line : string) : truthy (strip line) = has_text line.
Proof. unfold truthy. rewrite strip_empty. now rewrite negb_involutive. Qed.

Lemma parseable_of_parts (line p0 p1 p2 p3 p4 message : string) :
  split_max space 5 line = [p0; p1; p2; p3; p4; message] ->
  has_text message = true ->
  parseable line message.
Proof.
  intros Hs Hm. split; [|now exists p0, p1, p2, p3, p4].
  rewrite truthy_strip.
  rewrite <- (split_max_join space 5 line), Hs.
  exact (has_text_last_part space [p0; p1; p2; p3; p4] message Hm).
Qed.

(** The body of the [try] block does not raise on six parts or more. *)
Lemma parse_parts_returns (b : ADBBridge) (line : string) (parts : list string) :
  6 <= List.length parts -> returns (parse_parts b line parts).
Proof.
  intros L.
  destruct parts as [|q0 [|q1 [|q2 [|q3 [|q4 [|q5 qs]]]]]]; simpl in L; try lia.
  destruct package_pattern_compiles as [p Hp].
  unfold parse_parts. cbn [index nth_error bind List.length Nat.ltb Nat.leb].
  rewrite Hp. cbn [bind].
  destruct (first_match (error_patterns b) q5) as [name|]; [|now eexists].
  destruct (truthy name); now eexists.
Qed.

(** What [parse_log_line] answers on a line that passes the guards. *)
Lemma parse_log_line_parseable (b : ADBBridge) (line message : string) :
  parseable line message ->
  match first_match (error_patterns b) message with
  | Some name =>
      if truthy name then
        exists ev, parse_log_line b line = Ret (Some ev)
          /\ field "error_type" ev = Some (VStr name)
          /\ field "severity" ev = Some (VStr (_get_error_severity name))
          /\ field "permission_type" ev = Some (opt_str (permission_of b name message))
          /\ field "message" ev = Some (VStr (strip message))
      else parse_log_line b line = Ret None
  | None => parse_log_line b line = Ret None
  end.
Proof.
  intros (Ht & p0 & p1 & p2 & p3 & p4 & Hs).
  destruct package_pattern_compiles as [p Hp].
  unfold parse_log_line. rewrite Ht, Hs.
  cbn [negb List.length Nat.ltb Nat.leb].
  unfold parse_parts. cbn [index nth_error bind List.length Nat.ltb Nat.leb].
  rewrite Hp. cbn [bind].
  destruct (first_match (error_patterns b) message) as [name|]; [|reflexivity].
  destruct (truthy name); [|reflexivity].
  eexists. split; [reflexivity|].
  unfold permission_of, opt_eqb. repeat split.
Qed.

(** A line that yields an event passed the guards. *)
Lemma parse_log_line_some (b : ADBBridge) (line : string) (ev : Event) :
  parse_log_line b line = Ret (Some ev) ->
  exists message, parseable line message.
Proof.
  unfold parse_log_line. intros H.
  destruct (truthy (strip line)) eqn:Ht; [|discriminate]. cbn [negb] in H.
  destruct (split_max space 5 line)
    as [|q0 [|q1 [|q2 [|q3 [|q4 [|q5 [|q6 qs]]]]]]] eqn:Hs;
    try discriminate.
  - exists q5. split; [exact Ht | now exists q0, q1, q2, q3, q4].
  - pose proof (split_max_length space 5 line) as L. rewrite Hs in L.
    cbn [List.length] in L. lia.
Qed.

End Classifier.

(** ** Properties of the pattern catalog and of the classifier *)

Section ClassifierProperties.

(** Every event comes from the first rule found in the message. *)
Lemma event_rule (b : ADBBridge) (line : string) (ev : Event) :
  parse_log_line b line = Ret (Some ev) ->
  exists message name,
    parseable line message
    /\ first_match (error_patterns b) message = Some name
    /\ field "error_type" ev = Some (VStr name)
    /\ field "severity" ev = Some (VStr (_get_error_severity name))
    /\ field "permission_type" ev = Some (opt_str (permission_of b name message))
    /\ field "message" ev = Some (VStr (strip message)).
Proof.
  intros H. destruct (parse_log_line_some b line ev H) as [message P].
  exists message. pose proof (parse_log_line_parseable b line message P) as Q.
  destruct (first_match (error_patterns b) message) as [name|]; [|congruence].
  destruct (truthy name); [|congruence].
  destruct Q as (ev' & E & F1 & F2 & F3 & F4).
  assert (ev' = ev) as -> by congruence.
  exists name. repeat (split; [assumption || reflexivity|]). assumption.
Qed.

(** C1, as claimed, fails: [ADBBridge()] raises [re.error] on the pattern
    of [native_crash], whose text starts with a repeat sign; and the names of
    the display are not in the order the specification lists. *)
Lemma catalog_construction_raises :
  __init__ default_port = Raise (re_error "nothing to repeat" 0)
  /\ keys (dict_of error_pattern_sources) <> spec_rule_order.
Proof. split; [vm_compute; reflexivity | vm_compute; discriminate]. Qed.

(** C1, amended: the display of [self.error_patterns] names the eleven
    rules of the specification, each once, in the order of the source:
    [fatal_exception], [null_pointer], [out_of_memory], [permission_denied],
    [network_error], [storage_error], [crash_anr], [native_crash],
    [security_exception], [illegal_state], [runtime_exception]. *)
Theorem error_rule_names_in_source_order :
  keys (dict_of error_pattern_sources) =
    [ "fatal_exception"; "null_pointer"; "out_of_memory"; "permission_denied";
      "network_error"; "storage_error"; "crash_anr"; "native_crash";
      "security_exception"; "illegal_state"; "runtime_exception" ]
  /\ List.length (keys (dict_of error_pattern_sources)) = 11
  /\ (forall name, In name (keys (dict_of error_pattern_sources))
                   <-> In name spec_rule_order).
Proof.
  split; [reflexivity|]. split; [reflexivity|].
  intros name. vm_compute. tauto.
Qed.

(** C2, as claimed, fails: the line that is only the text
    [FATAL EXCEPTION: foo] has three parts and is dropped by the guard on
    the number of parts. *)
Lemma fatal_text_alone_is_dropped :
  contains "FATAL EXCEPTION: foo" "FATAL EXCEPTION: foo"
  /\ parse_log_line sample_bridge "FATAL EXCEPTION: foo" = Ret None.
Proof.
  split; [exists "", ""; reflexivity | vm_compute; reflexivity].
Qed.

(** C2, amended: on a bridge whose first error rule is [fatal_exception]
    as the source writes it, every line whose split at the first five spaces
    has six parts, the sixth containing [FATAL EXCEPTION: foo], yields an
    event with [error_type] [fatal_exception] and [severity] [critical]. *)
Theorem fatal_exception_classified
    (b : ADBBridge) (fatal : Re.Pattern) (rest : dict Re.Pattern)
    (line p0 p1 p2 p3 p4 message : string) :
  Re.compile "FATAL EXCEPTION: (.+)" true = Ret fatal ->
  error_patterns b = ("fatal_exception", fatal) :: rest ->
  split_max space 5 line = [p0; p1; p2; p3; p4; message] ->
  contains "FATAL EXCEPTION: foo" message ->
  exists ev,
    parse_log_line b line = Ret (Some ev)
    /\ field "error_type" ev = Some (VStr "fatal_exception")
    /\ field "severity" ev = Some (VStr "critical").
Proof.
  intros Hc Ht Hs Hm.
  assert (P : parseable line message).
  { apply (parseable_of_parts line p0 p1 p2 p3 p4 message Hs).
    now apply (contains_has_text "FATAL EXCEPTION: foo"). }
  pose proof (parse_log_line_parseable b line message P) as Q.
  rewrite Ht in Q. cbn [first_match] in Q.
  rewrite (fatal_signature_found fatal message Hc Hm) in Q.
  cbn in Q. destruct Q as (ev & E & F1 & F2 & _).
  exists ev. auto.
Qed.

Lemma fatal_exception_classified_witness :
  exists ev,
    parse_log_line sample_bridge
      "01-01 00:00:00.000 1-1/1 E AndroidRuntime: FATAL EXCEPTION: foo"
      = Ret (Some ev)
    /\ field "error_type" ev = Some (VStr "fatal_exception")
    /\ field "severity" ev = Some (VStr "critical").
Proof.
  eapply (fatal_exception_classified sample_bridge _ _
            "01-01 00:00:00.000 1-1/1 E AndroidRuntime: FATAL EXCEPTION: foo").
  - vm_compute. reflexivity.
  - vm_compute. reflexivity.
  - vm_compute. reflexivity.
  - exists "", "". reflexivity.
Defined.

(** C3, as claimed, fails: a line of four fields separated by a run of six
    spaces has six parts for [split(' ', 5)] and is classified. *)
Lemma four_fields_are_classified :
  List.length (fields "x      FATAL EXCEPTION: foo") = 4
  /\ exists ev, parse_log_line sample_bridge "x      FATAL EXCEPTION: foo" = Ret (Some ev).
Proof. split; [reflexivity | vm_compute; eexists; reflexivity]. Qed.

(** C3, amended: every line that is empty, all white space, or holds fewer
    than five space characters - so that [split(' ', 5)] gives fewer than six
    parts - is answered with nothing. *)
Theorem short_line_rejected (b : ADBBridge) (line : string) :
  has_text line = false \/ count space line < 5 ->
  parse_log_line b line = Ret None.
Proof.
  intros H. unfold parse_log_line.
  destruct (truthy (strip line)) eqn:T; [|reflexivity]. cbn [negb].
  destruct H as [H|H].
  - rewrite truthy_strip in T. congruence.
  - assert (L : List.length (split_max space 5 line) < 6)
      by (rewrite split_max_length; lia).
    apply Nat.ltb_lt in L. now rewrite L.
Qed.

Lemma short_line_rejected_witness :
  parse_log_line sample_bridge "AndroidRuntime: FATAL EXCEPTION: main" = Ret None.
Proof.
  apply (short_line_rejected sample_bridge "AndroidRuntime: FATAL EXCEPTION: main").
  right. vm_compute. lia.
Defined.

(** C4: the error rules are tried in the order of the table, past every
    rule that is not found, and the first one found in the message names the
    event: whichever entry of the table is the first to be found decides,
    and no line yields an event otherwise.  So, on a table that lists
    [fatal_exception] first and [runtime_exception] later, as the source
    does, a parseable line whose message carries both signatures is
    classified [fatal_exception]; and one that carries the
    [runtime_exception] signature and none of the rules before it is
    classified [runtime_exception]. *)
Theorem first_matching_rule_wins :
  (forall (b : ADBBridge) (line message name : string)
          (pre post : dict Re.Pattern) (p : Re.Pattern),
      parseable line message ->
      error_patterns b = (pre ++ (name, p) :: post)%list ->
      Forall (fun e => Re.found (snd e) message = false) pre ->
      Re.found p message = true ->
      name <> "" ->
      exists ev,
        parse_log_line b line = Ret (Some ev)
        /\ field "error_type" ev = Some (VStr name))
  /\ (forall (b : ADBBridge) (line : string) (ev : Event),
        parse_log_line b line = Ret (Some ev) ->
        exists message pre name p post,
          parseable line message
          /\ error_patterns b = (pre ++ (name, p) :: post)%list
          /\ Forall (fun e => Re.found (snd e) message = false) pre
          /\ Re.found p message = true
          /\ field "error_type" ev = Some (VStr name))
  /\ (forall (b : ADBBridge) (fatal runtime : Re.Pattern)
             (mid post : dict Re.Pattern) (line message : string),
        Re.compile "FATAL EXCEPTION: (.+)" true = Ret fatal ->
        Re.compile "RuntimeException" true = Ret runtime ->
        error_patterns b =
          (("fatal_exception", fatal) :: mid
             ++ ("runtime_exception", runtime) :: post)%list ->
        parseable line message ->
        Re.found runtime message = true ->
        (Re.found fatal message = true ->
         exists ev,
           parse_log_line b line = Ret (Some ev)
           /\ field "error_type" ev = Some (VStr "fatal_exception"))
        /\ (Re.found fatal message = false ->
            Forall (fun e => Re.found (snd e) message = false) mid ->
            exists ev,
              parse_log_line b line = Ret (Some ev)
              /\ field "error_type" ev = Some (VStr "runtime_exception"))).
Proof.
  assert (G : forall (b : ADBBridge) (line message name : string)
                     (pre post : dict Re.Pattern) (p : Re.Pattern),
             parseable line message ->
             error_patterns b = (pre ++ (name, p) :: post)%list ->
             Forall (fun e => Re.found (snd e) message = false) pre ->
             Re.found p message = true ->
             name <> "" ->
             exists ev,
               parse_log_line b line = Ret (Some ev)
               /\ field "error_type" ev = Some (VStr name)).
  { intros b line message name pre post p P Ht Hpre Hp Hn.
    pose proof (parse_log_line_parseable b line message P) as Q.
    rewrite Ht, (first_match_skip pre post name message p Hpre Hp) in Q.
    assert (T : truthy name = true) by (destruct name; [congruence | reflexivity]).
    rewrite T in Q. destruct Q as (ev & E & F1 & _). exists ev. auto. }
  split; [exact G|]. split.
  - intros b line ev H.
    destruct (event_rule b line ev H) as (message & name & P & F & E & _).
    apply first_match_spec in F. destruct F as (pre & p & post & T & Fp & Hpre).
    exists message, pre, name, p, post. auto.
  - intros b fatal runtime mid post line message _ _ Ht P Hr. split.
    + intros Hf.
      apply (G b line message "fatal_exception" []
               (mid ++ ("runtime_exception", runtime) :: post)%list fatal);
        [exact P | exact Ht | constructor | exact Hf | discriminate].
    + intros Hf Hmid.
      apply (G b line message "runtime_exception" (("fatal_exception", fatal) :: mid)
               post runtime);
        [exact P | exact Ht | constructor; [exact Hf | exact Hmid] | exact Hr
        | discriminate].
Qed.

Lemma first_matching_rule_wins_witness :
  (exists ev,
     parse_log_line sample_bridge
       "01-01 00:00:00.000 1-1/1 E App: FATAL EXCEPTION: java.lang.RuntimeException"
       = Ret (Some ev)
     /\ field "error_type" ev = Some (VStr "fatal_exception"))
  /\ (exists ev,
        parse_log_line sample_bridge
          "01-01 00:00:00.000 1-1/1 E App: java.lang.RuntimeException: boom"
          = Ret (Some ev)
        /\ field "error_type" ev = Some (VStr "runtime_exception")).
Proof.
  split.
  - refine (proj1 (proj2 (proj2 first_matching_rule_wins) sample_bridge
                     (pattern_of "FATAL EXCEPTION: (.+)") (pattern_of "RuntimeException")
                     (firstn 8 (tl (error_patterns sample_bridge))) []
                     "01-01 00:00:00.000 1-1/1 E App: FATAL EXCEPTION: java.lang.RuntimeException"
                     "FATAL EXCEPTION: java.lang.RuntimeException" _ _ _ _ _) _).
    + vm_compute. reflexivity.
    + vm_compute. reflexivity.
    + vm_compute. reflexivity.
    + split; [vm_compute; reflexivity|].
      exists "01-01", "00:00:00.000", "1-1/1", "E", "App:". vm_compute. reflexivity.
    + vm_compute. reflexivity.
    + vm_compute. reflexivity.
  - refine (proj2 (proj2 (proj2 first_matching_rule_wins) sample_bridge
                     (pattern_of "FATAL EXCEPTION: (.+)") (pattern_of "RuntimeException")
                     (firstn 8 (tl (error_patterns sample_bridge))) []
                     "01-01 00:00:00.000 1-1/1 E App: java.lang.RuntimeException: boom"
                     "java.lang.RuntimeException: boom" _ _ _ _ _) _ _).
    + vm_compute. reflexivity.
    + vm_compute. reflexivity.
    + vm_compute. reflexivity.
    + split; [vm_compute; reflexivity|].
      exists "01-01", "00:00:00.000", "1-1/1", "E", "App:". vm_compute. reflexivity.
    + vm_compute. reflexivity.
    + vm_compute. reflexivity.
    + apply none_found_of_forallb. vm_compute. reflexivity.
Defined.

(** C5, as claimed, fails: a message that carries the permission-denied
    signature and [CAMERA] but also the [fatal_exception] signature is
    classified by the earlier rule, and [permission_type] stays [None]. *)
Lemma camera_denial_after_fatal_has_no_permission :
  let line := "a b c d e FATAL EXCEPTION: Permission denied for CAMERA" in
  let message := "FATAL EXCEPTION: Permission denied for CAMERA" in
  parseable line message
  /\ contains "Permission denied" message
  /\ contains "CAMERA" message
  /\ exists ev,
       parse_log_line sample_bridge line = Ret (Some ev)
       /\ field "error_type" ev = Some (VStr "fatal_exception")
       /\ field "permission_type" ev = Some VNone.
Proof.
  cbv zeta. split; [|split; [|split]].
  - split; [vm_compute; reflexivity|]. do 5 eexists. vm_compute. reflexivity.
  - exists "FATAL EXCEPTION: ", " for CAMERA". reflexivity.
  - exists "FATAL EXCEPTION: Permission denied for ", "". reflexivity.
  - vm_compute. eexists. repeat split.
Qed.

(** C5, amended: [permission_type] is the first permission rule found in
    the message when the event's rule is [permission_denied], and [None]
    otherwise; so a parseable line whose message carries the
    permission-denied signature, none of the error rules placed before
    [permission_denied], and the substring [CAMERA], yields an event with
    [permission_type] [camera]. *)
Theorem camera_permission_classified :
  (forall (b : ADBBridge) (line : string) (ev : Event),
      parse_log_line b line = Ret (Some ev) ->
      exists message name,
        parseable line message
        /\ field "error_type" ev = Some (VStr name)
        /\ field "permission_type" ev =
             Some (opt_str (if String.eqb name "permission_denied"
                            then first_match (permission_patterns b) message
                            else None)))
  /\ (forall (b : ADBBridge) (perm cam : Re.Pattern)
             (pre post others : dict Re.Pattern) (line message : string),
        Re.compile "Permission denied" true = Ret perm ->
        Re.compile "camera|CAMERA" true = Ret cam ->
        error_patterns b = (pre ++ ("permission_denied", perm) :: post)%list ->
        permission_patterns b = ("camera", cam) :: others ->
        parseable line message ->
        Forall (fun e => Re.found (snd e) message = false) pre ->
        Re.found perm message = true ->
        contains "CAMERA" message ->
        exists ev,
          parse_log_line b line = Ret (Some ev)
          /\ field "error_type" ev = Some (VStr "permission_denied")
          /\ field "permission_type" ev = Some (VStr "camera")).
Proof.
  split.
  - intros b line ev H.
    destruct (event_rule b line ev H) as (message & name & P & _ & E & _ & Pm & _).
    exists message, name. auto.
  - intros b perm cam pre post others line message _ Hcam Ht Hp P Hpre Hperm Hc.
    pose proof (parse_log_line_parseable b line message P) as Q.
    rewrite Ht, (first_match_skip pre post _ message perm Hpre Hperm) in Q.
    cbn in Q. destruct Q as (ev & E & F1 & _ & F3 & _).
    exists ev. split; [exact E|]. split; [exact F1|].
    rewrite F3. unfold permission_of. cbn. rewrite Hp. cbn [first_match].
    now rewrite (camera_signature_found cam message Hcam Hc).
Qed.

Lemma camera_permission_classified_witness :
  exists ev,
    parse_log_line sample_bridge
      "01-01 00:00:00.000 1-1/1 E App: Permission denied: android.permission.CAMERA"
      = Ret (Some ev)
    /\ field "error_type" ev = Some (VStr "permission_denied")
    /\ field "permission_type" ev = Some (VStr "camera").
Proof.
  eapply (proj2 camera_permission_classified sample_bridge _ _
            [(_, _); (_, _); (_, _)] _ _
            "01-01 00:00:00.000 1-1/1 E App: Permission denied: android.permission.CAMERA"
            "Permission denied: android.permission.CAMERA").
  - vm_compute. reflexivity.
  - vm_compute. reflexivity.
  - vm_compute. reflexivity.
  - vm_compute. reflexivity.
  - split; [vm_compute; reflexivity|]. do 5 eexists. vm_compute. reflexivity.
  - repeat (apply Forall_cons; [vm_compute; reflexivity|]). apply Forall_nil.
  - vm_compute. reflexivity.
  - exists "Permission denied: android.permission.", "". reflexivity.
Defined.

(** C10: [parse_log_line] answers every line with an event or with
    nothing; it never raises. *)
Theorem parse_log_line_total (b : ADBBridge) (line : string) :
  exists answer : option Event, parse_log_line b line = Ret answer.
Proof.
  unfold parse_log_line.
  destruct (negb (truthy (strip line))); [now eexists|].
  destruct (Nat.ltb (List.length (split_max space 5 line)) 6) eqn:L; [now eexists|].
  apply Nat.ltb_ge in L.
  destruct (parse_parts_returns b line _ L) as [r ->]. now eexists.
Qed.

End ClassifierProperties.

(** ** The forwarding channel and the session *)

Section Session.

Lemma dict_get_set_same {V} (k : string) (v : V) (d : dict V) :
  dict_get k (dict_set k v d) = Some v.
Proof.
  induction d as [|[k' v'] d IH]; simpl.
  - now rewrite String.eqb_refl.
  - destruct (String.eqb k' k) eqn:E; simpl; rewrite E; [reflexivity | exact IH].
Qed.

Lemma dict_get_set_other {V} (k k' : string) (v : V) (d : dict V) :
  k <> k' -> dict_get k (dict_set k' v d) = dict_get k d.
Proof.
  intros N. induction d as [|[k0 v0] d IH]; simpl.
  - destruct (String.eqb k' k) eqn:E; [|reflexivity].
    apply String.eqb_eq in E. congruence.
  - destruct (String.eqb k0 k') eqn:E; simpl.
    + apply String.eqb_eq in E. subst k0.
      destruct (String.eqb k' k) eqn:E'; [|reflexivity].
      apply String.eqb_eq in E'. congruence.
    + destruct (String.eqb k0 k); [reflexivity | exact IH].
Qed.

Ltac io :=
  unfold send_error_to_desktop, stop_monitoring, stop_adb_logcat, mbind, get_self,
    try_except, try_finally, time_time, ws_send, ws_close, proc_wait, lift, logger,
    emit, update, ret, raise, next, record, answer, reading, stamped.

(** With a connection handle set, [send_error_to_desktop] stamps the
    event, hands it to the transport, writes one log record and returns;
    the object is left as it was. *)
Lemma send_with_connection (st : state) (c : conn) (ev : Event) :
  desktop_connection (self st) = Some c ->
  exists lvl msg,
    send_error_to_desktop ev st =
      (Ret tt,
       mkState (self st)
         (mkEnv (ws_connects (env st)) (tl (ws_sends (env st))) (ws_closes (env st))
                (adb_devices (env st)) (popens (env st)) (adb_output (env st))
                (waits (env st)) (tl (clock (env st))) (idle_sleeps (env st))
                (Log lvl msg :: WsSend c (stamped (reading (env st)) ev)
                   :: trace (env st))))
    /\ lvl <> WARNING
    /\ (hd true (ws_sends (env st)) = false ->
        lvl = ERROR /\ msg = "Failed to send error to desktop: connection closed").
Proof.
  intros H. destruct st as [b e]. simpl in H. io. simpl. rewrite H.
  destruct e as [cs ss cl ad po ao wa ck idl tr]. simpl.
  destruct ck as [|t ck]; destruct ss as [|[] ss]; simpl;
    unfold getitem;
    repeat match goal with
           | |- context [dict_get ?k ?d] => destruct (dict_get k d) as [[]|]; simpl
           end;
    do 2 eexists; (split; [reflexivity|]); split; try discriminate;
    intros; try discriminate; auto.
Qed.

(** Without a connection handle the event is dropped with a warning. *)
Lemma send_without_connection (st : state) (ev : Event) :
  desktop_connection (self st) = None ->
  send_error_to_desktop ev st =
    (Ret tt,
     mkState (self st)
       (record (Log WARNING "No connection to desktop, cannot send error") (env st))).
Proof. intros H. io. simpl. now rewrite H. Qed.

(** C6, as claimed, fails: after a send that the transport fails, the
    connection handle is still set, and the next three events are each
    handed to the transport again; none is dropped with a warning. *)
Lemma events_after_failed_send_are_attempted :
  let st1 := after_send sample_event failing_transport in
  let st4 := after_send sample_event (after_send sample_event
               (after_send sample_event st1)) in
  desktop_connection (self st1) = Some 1
  /\ List.length (sent (trace (env st1))) = 1
  /\ List.length (sent (trace (env st4))) = 4
  /\ warnings (trace (env st4)) = [].
Proof. vm_compute. auto. Qed.

(** C6, amended: when the transport fails a send on a connected channel,
    the failure is logged as an error and swallowed and the bridge object is
    unchanged - the connection handle stays set; so every later event is
    stamped and handed to the transport again, without queue or retry, and
    without the warning of the unconnected case. *)
Theorem failed_send_keeps_connection
    (st : state) (c : conn) (ev : Event) (rest : list bool) :
  desktop_connection (self st) = Some c ->
  ws_sends (env st) = false :: rest ->
  let st1 := after_send ev st in
  fst (send_error_to_desktop ev st) = Ret tt
  /\ self st1 = self st
  /\ trace (env st1) =
       Log ERROR "Failed to send error to desktop: connection closed"
         :: WsSend c (stamped (reading (env st)) ev) :: trace (env st)
  /\ forall later : Event,
       let st2 := after_send later st1 in
       fst (send_error_to_desktop later st1) = Ret tt
       /\ desktop_connection (self st2) = Some c
       /\ sent (trace (env st2)) =
            (c, stamped (reading (env st1)) later) :: sent (trace (env st1))
       /\ warnings (trace (env st2)) = warnings (trace (env st1)).
Proof.
  intros Hc Hs st1.
  destruct (send_with_connection st c ev Hc) as (lvl & msg & E & _ & F).
  rewrite Hs in F. destruct (F eq_refl) as [-> ->].
  assert (E1 : st1 = snd (send_error_to_desktop ev st)) by reflexivity.
  rewrite E in E1 |- *. cbn [fst snd] in *.
  assert (Hc1 : desktop_connection (self st1) = Some c) by (rewrite E1; exact Hc).
  split; [reflexivity|]. split; [now rewrite E1|]. split; [now rewrite E1|].
  intros later. cbv zeta. set (st2 := after_send later st1).
  destruct (send_with_connection st1 c later Hc1) as (lvl' & msg' & E' & W & _).
  assert (E2 : st2 = snd (send_error_to_desktop later st1)) by reflexivity.
  rewrite E' in E2 |- *. cbn [fst snd] in *.
  split; [reflexivity|]. rewrite E2. cbn [self env trace sent warnings].
  split; [exact Hc1|]. split; [reflexivity|].
  destruct lvl'; congruence.
Qed.

Lemma failed_send_keeps_connection_witness :
  self (after_send sample_event failing_transport) = self failing_transport.
Proof.
  apply (failed_send_keeps_connection failing_transport 1 sample_event []);
    reflexivity.
Defined.

(** C9, as claimed, fails: the [source] written on the event is
    [adb_bridge], not [bridge]. *)
Lemma source_stamp_is_adb_bridge :
  exists payload,
    sent (trace (env (after_send sample_event
                        (mkState (connected_bridge 1) quiet)))) = [(1, payload)]
    /\ field "source" payload = Some (VStr "adb_bridge")
    /\ field "source" payload <> Some (VStr "bridge").
Proof.
  vm_compute. eexists. split; [reflexivity|]. split; [reflexivity | discriminate].
Qed.

Lemma truthy_of_text (s : string) : has_text s = true -> truthy s = true.
Proof. destruct s; simpl; [discriminate | reflexivity]. Qed.

(** On a line that the classifier turns into an event, the loop logs the
    detection and passes the event to [send_error_to_desktop]. *)
Lemma handle_line_event (st : state) (line : string) (ev : Event) :
  parse_log_line (self st) line = Ret (Some ev) ->
  exists msg,
    handle_line line st =
      send_error_to_desktop ev (mkState (self st) (record (Log INFO msg) (env st))).
Proof.
  intros Hp.
  destruct (event_rule _ _ _ Hp) as (message & name & P & _ & Fe & _ & _ & Fm).
  assert (T : truthy line = true).
  { apply truthy_of_text. destruct P as [T _]. now rewrite <- truthy_strip. }
  unfold handle_line. rewrite T.
  unfold mbind at 1. unfold get_self at 1. cbn [self].
  unfold mbind at 1. unfold lift at 1. rewrite Hp.
  destruct ev as [|kv ev']; [discriminate|].
  unfold field in Fe, Fm.
  unfold mbind, lift, getitem. rewrite Fe, Fm. cbn [slice_to format].
  unfold logger, emit. eexists. reflexivity.
Qed.

(** C9, amended: with a connection handle set, an event is finalized by
    writing [source], the string [adb_bridge], and [timestamp_sent], the
    reading of the clock, leaving every other field; it is then handed to the
    transport; and the monitoring loop does so with every event that
    [parse_log_line] produces. *)
Theorem event_stamped_then_sent :
  (forall (st : state) (c : conn) (ev : Event),
      desktop_connection (self st) = Some c ->
      let payload := stamped (reading (env st)) ev in
      field "source" payload = Some (VStr "adb_bridge")
      /\ field "timestamp_sent" payload = Some (VFloat (reading (env st)))
      /\ (forall k, k <> "source" -> k <> "timestamp_sent" ->
                    field k payload = field k ev)
      /\ fst (send_error_to_desktop ev st) = Ret tt
      /\ sent (trace (env (after_send ev st))) = (c, payload) :: sent (trace (env st)))
  /\ (forall (st : state) (c : conn) (line : string) (ev : Event),
        desktop_connection (self st) = Some c ->
        parse_log_line (self st) line = Ret (Some ev) ->
        fst (handle_line line st) = Ret tt
        /\ sent (trace (env (snd (handle_line line st)))) =
             (c, stamped (reading (env st)) ev) :: sent (trace (env st))).
Proof.
  split.
  - intros st c ev Hc payload. subst payload. unfold field, stamped.
    split; [|split; [|split; [|split]]].
    + rewrite dict_get_set_other by discriminate. apply dict_get_set_same.
    + apply dict_get_set_same.
    + intros k N1 N2. now rewrite !dict_get_set_other by congruence.
    + destruct (send_with_connection st c ev Hc) as (lvl & msg & E & _).
      now rewrite E.
    + destruct (send_with_connection st c ev Hc) as (lvl & msg & E & _).
      unfold after_send. now rewrite E.
  - intros st c line ev Hc Hp.
    destruct (handle_line_event st line ev Hp) as [msg ->].
    destruct (send_with_connection
                (mkState (self st) (record (Log INFO msg) (env st))) c ev Hc)
      as (lvl & m & E & _).
    rewrite E. split; reflexivity.
Qed.

Lemma event_stamped_then_sent_witness :
  field "source" (stamped (reading quiet) sample_event) = Some (VStr "adb_bridge").
Proof.
  apply (proj1 event_stamped_then_sent (mkState (connected_bridge 1) quiet) 1
           sample_event).
  reflexivity.
Defined.

(** The same early return when the child process cannot be spawned: one
    device is attached, [Popen] fails, and the connection stays open. *)
Lemma spawn_failure_leaves_connection_open :
  let finished := snd (run (mkState sample_bridge one_device_world)) in
  is_monitoring (self finished) = false
  /\ adb_process (self finished) = None
  /\ desktop_connection (self finished) = Some 1
  /\ closed (trace (env finished)) = [].
Proof. vm_compute. repeat split. Qed.

(** When the failure comes once the session is active - here the
    transport fails the status message - [stop_monitoring] does close the
    connection. *)
Lemma active_failure_closes_connection :
  let finished := snd (run (mkState sample_bridge spawned_world)) in
  is_monitoring (self finished) = false
  /\ adb_process (self finished) = None
  /\ closed (trace (env finished)) = [1].
Proof. vm_compute. repeat split. Qed.

(** C7, evaluated where it fails: the desktop accepts the connection and
    [adb devices] lists no device.  [start_monitoring] returns with the
    session idle and no child process started, but with the connection it
    opened still open; the [stop_monitoring] of [run] returns at its guard
    and closes nothing either. *)
Theorem no_device_leaves_connection_open
    (port : Z) (eps pps : dict Re.Pattern) (c : conn) :
  let st0 := mkState (new_bridge port eps pps) (no_device_world c) in
  let started := snd (start_monitoring st0) in
  let finished := snd (run st0) in
  fst (start_monitoring st0) = Ret tt
  /\ is_monitoring (self started) = false
  /\ adb_process (self started) = None
  /\ spawned (trace (env started)) = []
  /\ desktop_connection (self started) = Some c
  /\ closed (trace (env started)) = []
  /\ fst (run st0) = Ret tt
  /\ is_monitoring (self finished) = false
  /\ desktop_connection (self finished) = Some c
  /\ closed (trace (env finished)) = [].
Proof. vm_compute. repeat split. Qed.

(** C8: [stop_monitoring] returns without error and leaves the session
    idle with no process handle, the process it held having been told to
    terminate; a second call in succession returns without error and changes
    nothing, and [stop_adb_logcat] on the stopped handle does nothing. *)
Theorem stop_monitoring_idempotent (st : state) :
  handle_owned (self st) ->
  let st1 := snd (stop_monitoring st) in
  fst (stop_monitoring st) = Ret tt
  /\ is_monitoring (self st1) = false
  /\ adb_process (self st1) = None
  /\ (forall p, adb_process (self st) = Some p -> In (Terminate p) (trace (env st1)))
  /\ stop_monitoring st1 = (Ret tt, st1)
  /\ stop_adb_logcat st1 = (Ret tt, st1).
Proof.
  intros Own. destruct st as [b e]. unfold handle_owned in Own. cbn [self] in Own.
  destruct b as [port uri dc mon dev ap eps pps].
  destruct e as [cs ss cl ad po ao wa ck idl tr].
  cbn [is_monitoring adb_process] in Own.
  destruct mon.
  - destruct ap as [p|]; destruct dc as [c|];
      destruct wa as [|[] wa]; destruct ss as [|[] ss]; destruct cl as [|[] cl];
      cbv -[In]; repeat split;
      intros q Hq; inversion Hq; subst; cbn; tauto.
  - rewrite (Own eq_refl). cbv -[In]. repeat split. discriminate.
Qed.

Lemma stop_monitoring_idempotent_witness :
  handle_owned (self active_session)
  /\ stop_monitoring (snd (stop_monitoring active_session))
     = (Ret tt, snd (stop_monitoring active_session)).
Proof.
  assert (H : handle_owned (self active_session)) by (intros M; discriminate M).
  split; [exact H|].
  exact (proj1 (proj2 (proj2 (proj2 (proj2 (stop_monitoring_idempotent active_session H)))))).
Defined.

End Session.

(** ** The session owns its child process *)

Section Ownership.

Lemma triple_ret {A} (P : ADBBridge -> Prop) (a : A) R :
  triple P (ret a) (fun _ => P) R.
Proof. intros st H. exact H. Qed.

Lemma triple_bind {A B} P (m : M A) Q (f : A -> M B) Q' R :
  triple P m Q R -> (forall a, triple (Q a) (f a) Q' R) ->
  triple P (mbind m f) Q' R.
Proof.
  intros Hm Hf st H. unfold mbind. specialize (Hm st H).
  destruct (m st) as [[a|e] st']; [|exact Hm].
  exact (Hf a st' Hm).
Qed.

Lemma triple_conseq {A} (P P' : ADBBridge -> Prop) (m : M A)
    (Q Q' : A -> ADBBridge -> Prop) (R R' : exn -> ADBBridge -> Prop) :
  triple P m Q R ->
  (forall b, P' b -> P b) -> (forall a b, Q a b -> Q' a b) ->
  (forall e b, R e b -> R' e b) ->
  triple P' m Q' R'.
Proof.
  intros Hm HP HQ HR st H. specialize (Hm st (HP _ H)).
  destruct (m st) as [[a|e] st']; auto.
Qed.

Lemma triple_try_except {A} P (body : M A) Q R (catches : exn -> bool)
    (handler : exn -> M A) R' :
  triple P body Q R ->
  (forall e, catches e = true -> triple (R e) (handler e) Q R') ->
  (forall e b, catches e = false -> R e b -> R' e b) ->
  triple P (try_except catches body handler) Q R'.
Proof.
  intros Hb Hh Hp st H. unfold try_except. specialize (Hb st H).
  destruct (body st) as [[a|e] st']; [exact Hb|].
  destruct (catches e) eqn:C.
  - exact (Hh e C st' Hb).
  - exact (Hp e _ C Hb).
Qed.

Lemma triple_try_finally {A} P (body : M A) Q R (cleanup : M unit) Q' R' :
  triple P body Q R ->
  (forall a, triple (Q a) cleanup (fun _ => Q' a) R') ->
  (forall e, triple (R e) cleanup (fun _ => R' e) R') ->
  triple P (try_finally body cleanup) Q' R'.
Proof.
  intros Hb Hq Hr st H. unfold try_finally. specialize (Hb st H).
  destruct (body st) as [[a|e] st1].
  - specialize (Hq a st1 Hb). destruct (cleanup st1) as [[u|e2] st2]; exact Hq.
  - specialize (Hr e st1 Hb). destruct (cleanup st1) as [[u|e2] st2]; exact Hr.
Qed.

Lemma triple_env_only {A} (m : M A) (P : ADBBridge -> Prop) :
  env_only m -> triple P m (fun _ => P) (caught P).
Proof.
  intros Hm st H. destruct (Hm st) as [Hs He].
  destruct (m st) as [[a|e] st']; cbn [fst snd] in *.
  - now rewrite Hs.
  - split; [now apply He | now rewrite Hs].
Qed.

Lemma env_only_ret {A} (a : A) : env_only (ret a).
Proof. intros st. split; [reflexivity | discriminate]. Qed.

Lemma env_only_bind {A B} (m : M A) (f : A -> M B) :
  env_only m -> (forall a, env_only (f a)) -> env_only (mbind m f).
Proof.
  intros Hm Hf st. unfold mbind. destruct (Hm st) as [Hs He].
  destruct (m st) as [[a|e] st']; cbn [fst snd] in *.
  - destruct (Hf a st') as [Hs' He']. split; [congruence | exact He'].
  - split; [exact Hs|]. intros e0 E. inversion E; subst. now apply He.
Qed.

Lemma env_only_try_except {A} (body : M A) (handler : exn -> M A) :
  env_only body -> (forall e, env_only (handler e)) ->
  env_only (try_except is_Exception body handler).
Proof.
  intros Hb Hh st. unfold try_except. destruct (Hb st) as [Hs He].
  destruct (body st) as [[a|e] st']; cbn [fst snd] in *.
  - split; [exact Hs | discriminate].
  - rewrite (He e eq_refl). destruct (Hh e st') as [Hs' He'].
    split; [congruence | exact He'].
Qed.

Lemma env_only_lift {A} (o : outcome A) :
  (forall e, o = Raise e -> is_Exception e = true) -> env_only (lift o).
Proof. intros H st. split; [reflexivity | exact H]. Qed.

Lemma env_only_emit (a : action) : env_only (emit a).
Proof. intros st. split; [reflexivity | discriminate]. Qed.

Lemma env_only_ws_send (c : conn) (payload : dict pyval) : env_only (ws_send c payload).
Proof.
  intros st. unfold ws_send, next. cbn.
  destruct (ws_sends (env st)) as [|[] ?]; cbn; split; try reflexivity;
    intros e H; inversion H; reflexivity.
Qed.

Lemma env_only_ws_close (c : conn) : env_only (ws_close c).
Proof.
  intros st. unfold ws_close, next. cbn.
  destruct (ws_closes (env st)) as [|[] ?]; cbn; split; try reflexivity;
    intros e H; inversion H; reflexivity.
Qed.

Lemma env_only_connect (uri : string) : env_only (websockets_connect uri).
Proof.
  intros st. unfold websockets_connect, next. cbn.
  destruct (ws_connects (env st)) as [|[] ?]; cbn; split; try reflexivity;
    intros e H; inversion H; reflexivity.
Qed.

Lemma env_only_run_adb_devices : env_only run_adb_devices.
Proof.
  intros st. unfold run_adb_devices, next. cbn.
  destruct (adb_devices (env st)) as [|[] ?]; cbn; split; try reflexivity;
    intros e H; inversion H; reflexivity.
Qed.

Lemma env_only_Popen (cmd : list string) : env_only (subprocess_Popen cmd).
Proof.
  intros st. unfold subprocess_Popen, next. cbn.
  destruct (popens (env st)) as [|[] ?]; cbn; split; try reflexivity;
    intros e H; inversion H; reflexivity.
Qed.

Lemma env_only_wait (p : proc) : env_only (proc_wait p).
Proof.
  intros st. unfold proc_wait, next. cbn.
  destruct (waits (env st)) as [|[] ?]; cbn; split; try reflexivity;
    intros e H; inversion H; reflexivity.
Qed.

Lemma env_only_take_output : env_only take_output.
Proof. intros st. split; [reflexivity | discriminate]. Qed.

Lemma env_only_get_self (k : ADBBridge -> M unit) :
  (forall b, env_only (k b)) -> env_only (mbind get_self k).
Proof. intros H st. unfold mbind, get_self. apply H. Qed.

Lemma env_only_time : env_only time_time.
Proof.
  intros st. unfold time_time, next.
  destruct (clock (env st)) as [|t ck]; cbn; split; try reflexivity; discriminate.
Qed.

Lemma getitem_raises (d : dict pyval) (k : string) (e : exn) :
  getitem d k = Raise e -> is_Exception e = true.
Proof. unfold getitem. destruct (dict_get k d); intros H; inversion H. reflexivity. Qed.

Lemma slice_to_raises (n : nat) (v : pyval) (e : exn) :
  slice_to n v = Raise e -> is_Exception e = true.
Proof. destruct v; intros H; inversion H; reflexivity. Qed.

Lemma env_only_send_error (ev : Event) : env_only (send_error_to_desktop ev).
Proof.
  unfold send_error_to_desktop. apply env_only_get_self. intros b.
  destruct (desktop_connection b) as [c|]; [|apply env_only_emit].
  apply env_only_try_except; [|intros e; apply env_only_emit].
  apply env_only_bind; [apply env_only_time|]. intros t.
  apply env_only_bind; [apply env_only_ws_send|]. intros _.
  apply env_only_bind; [apply env_only_lift, getitem_raises|]. intros v.
  apply env_only_bind; [apply env_only_lift, getitem_raises|]. intros w.
  apply env_only_bind; [apply env_only_lift, slice_to_raises|]. intros h.
  apply env_only_emit.
Qed.

Lemma parse_log_line_raises (b : ADBBridge) (line : string) (e : exn) :
  parse_log_line b line = Raise e -> is_Exception e = true.
Proof.
  unfold parse_log_line.
  destruct (negb (truthy (strip line))); [discriminate|].
  destruct (Nat.ltb (List.length (split_max space 5 line)) 6) eqn:L; [discriminate|].
  apply Nat.ltb_ge in L.
  destruct (parse_parts_returns b line _ L) as [r ->]. discriminate.
Qed.

Lemma env_only_handle_line (line : string) : env_only (handle_line line).
Proof.
  unfold handle_line. destruct (truthy line); [|apply env_only_ret].
  apply env_only_get_self. intros b.
  apply env_only_bind; [apply env_only_lift, parse_log_line_raises|].
  intros [[|kv ev]|]; try apply env_only_ret.
  apply env_only_bind; [apply env_only_lift, getitem_raises|]. intros v.
  apply env_only_bind; [apply env_only_lift, getitem_raises|]. intros w.
  apply env_only_bind; [apply env_only_lift, slice_to_raises|]. intros h.
  apply env_only_bind; [apply env_only_emit|]. intros _.
  apply env_only_send_error.
Qed.

Lemma env_only_monitor_loop (ticks : list tick) : env_only (monitor_loop ticks).
Proof.
  induction ticks as [|t ticks IH]; cbn [monitor_loop];
    apply env_only_get_self; intros b;
    destruct (negb (is_monitoring b)); try apply env_only_ret.
  apply env_only_bind.
  - destruct t; [apply env_only_ret|].
    intros st. split; [reflexivity|]. intros e H. inversion H. reflexivity.
  - intros line. apply env_only_bind; [apply env_only_handle_line|]. intros _.
    apply env_only_bind; [apply env_only_emit | intros _; exact IH].
Qed.

Lemma env_only_get_connected_devices : env_only get_connected_devices.
Proof.
  unfold get_connected_devices. apply env_only_try_except.
  - apply env_only_bind; [apply env_only_run_adb_devices|]. intros r.
    destruct (Z.eqb (returncode r) 0); [apply env_only_ret|].
    apply env_only_bind; [apply env_only_emit | intros _; apply env_only_ret].
  - intros e. apply env_only_bind; [apply env_only_emit | intros _; apply env_only_ret].
Qed.

Lemma env_only_select_device : env_only select_device.
Proof.
  unfold select_device. apply env_only_bind; [apply env_only_get_connected_devices|].
  intros [|d [|d' ds]];
    repeat (apply env_only_bind; [apply env_only_emit | intros _]);
    apply env_only_ret.
Qed.

Lemma triple_update (f : ADBBridge -> ADBBridge) (Q : unit -> ADBBridge -> Prop) R :
  triple (fun b => Q tt (f b)) (update f) Q R.
Proof. intros st H. exact H. Qed.

Lemma triple_get_self {A} (P : ADBBridge -> Prop) (k : ADBBridge -> M A) Q R :
  (forall b, P b -> triple (fun b' => b' = b) (k b) Q R) ->
  triple P (mbind get_self k) Q R.
Proof. intros H st Hs. unfold mbind, get_self. exact (H (self st) Hs st eq_refl). Qed.

Lemma stop_adb_logcat_triple (m : bool) (p : option proc) :
  triple (session m p) stop_adb_logcat (fun _ => session m None) never.
Proof.
  intros [b e] [Hm Hp]. cbn [self] in *.
  destruct b as [port uri dc mon dev ap eps pps].
  destruct e as [cs ss cl ad po ao wa ck idl tr].
  cbn [is_monitoring adb_process] in *. subst mon ap.
  destruct p as [p|]; [destruct wa as [|[] wa]|]; cbv; auto.
Qed.

Lemma stop_monitoring_triple :
  triple handle_owned stop_monitoring (fun _ => session false None) never.
Proof.
  intros [b e] Own. unfold handle_owned in Own. cbn [self] in Own.
  destruct b as [port uri dc mon dev ap eps pps].
  destruct e as [cs ss cl ad po ao wa ck idl tr].
  cbn [is_monitoring adb_process] in Own.
  destruct mon.
  - destruct ap as [p|]; destruct dc as [c|];
      destruct wa as [|[] wa]; destruct ss as [|[] ss]; destruct cl as [|[] cl];
      cbv; auto.
  - rewrite (Own eq_refl). cbv. auto.
Qed.

Lemma connect_to_desktop_triple (m : bool) (p : option proc) :
  triple (session m p) connect_to_desktop
         (fun _ => session m p) (caught (session m p)).
Proof.
  intros [b e] [Hm Hp]. cbn [self] in *.
  destruct b as [port uri dc mon dev ap eps pps].
  destruct e as [cs ss cl ad po ao wa ck idl tr].
  cbn [is_monitoring adb_process] in *. subst mon ap.
  unfold connect_to_desktop, try_except, mbind, get_self, websockets_connect,
    ws_send, update, logger, emit, raise, next, record, answer.
  cbn -[dict_of append].
  destruct cs as [|[c|] cs]; cbn -[dict_of append];
    [| destruct ss as [|[] ss]; cbn -[dict_of append] |];
    unfold caught, session; cbn; auto.
Qed.

Lemma start_adb_logcat_triple (m : bool) (p : option proc) (device : string) :
  triple (session m p) (start_adb_logcat device)
         (fun r b => match r with
                     | Some q => session m (Some q) b
                     | None => session m p b
                     end)
         never.
Proof.
  intros [b e] [Hm Hp]. cbn [self] in *.
  destruct b as [port uri dc mon dev ap eps pps].
  destruct e as [cs ss cl ad po ao wa ck idl tr].
  cbn [is_monitoring adb_process] in *. subst mon ap.
  unfold start_adb_logcat, try_except, mbind, subprocess_Popen, update, logger,
    emit, ret, next, record.
  cbn -[append join].
  destruct po as [|[q|] po]; cbn -[append join]; unfold session; cbn; auto.
Qed.

Lemma triple_emit (P : ADBBridge -> Prop) (a : action) R :
  triple P (emit a) (fun _ => P) R.
Proof. intros st H. exact H. Qed.

Lemma triple_false {A} (m : M A) Q R : triple (fun _ => False) m Q R.
Proof. intros st []. Qed.

(** A handler that only logs. *)
Lemma triple_log_handler (P : ADBBridge -> Prop) (e : exn) (lvl : level) (msg : string) R :
  triple (caught P e) (logger lvl msg) (fun _ => P) R.
Proof. intros st [_ H]. exact H. Qed.

Lemma caught_not_passed (P : ADBBridge -> Prop) (e : exn) (b : ADBBridge) R :
  is_Exception e = false -> caught P e b -> R.
Proof. intros F [T _]. congruence. Qed.

Lemma monitor_adb_logcat_triple (m : bool) (p : option proc) :
  triple (session m p) monitor_adb_logcat (fun _ => session m None) never.
Proof.
  unfold monitor_adb_logcat. apply triple_get_self. intros b [Hm Hp].
  destruct (adb_process b) as [q|] eqn:Hq.
  - apply triple_bind with (Q := fun _ => session m p).
    + intros st H. cbn. rewrite H. split; congruence.
    + intros _.
      apply triple_try_finally
        with (Q := fun _ => session m p) (R := never).
      * apply triple_try_except with (R := caught (session m p)).
        -- apply triple_env_only.
           apply env_only_bind; [apply env_only_take_output|].
           intros ticks. apply env_only_monitor_loop.
        -- intros e _. apply triple_log_handler.
        -- intros e b0 F C. exact (caught_not_passed _ _ _ _ F C).
      * intros _. apply stop_adb_logcat_triple.
      * intros e. apply triple_false.
  - intros st H. cbn. rewrite H. split; congruence.
Qed.

Lemma session_owned (m : bool) (b : ADBBridge) : session m None b -> handle_owned b.
Proof. intros [_ H] _. exact H. Qed.

Lemma active_owned (p : option proc) (b : ADBBridge) : session true p b -> handle_owned b.
Proof. intros [H _] F. congruence. Qed.

(** The body of the [try] block of [start_monitoring], from an idle
    object: it ends, or raises, with the handle owned. *)
Lemma start_monitoring_body_triple (body : M unit) :
  body =
    (connect_to_desktop ;;
     d <- select_device ;;
     update (set_device_id d) ;;
     match d with
     | Some device =>
         if truthy device then
           p <- start_adb_logcat device ;;
           match p with
           | None => logger ERROR "Failed to start ADB logcat"
           | Some _ =>
               update (set_is_monitoring true) ;;
               b' <- get_self ;;
               match desktop_connection b' with
               | None => raise AttributeError
               | Some c =>
                   ws_send c (dict_of
                     [ ("type", VStr "adb_monitoring_status");
                       ("status", VStr "active");
                       ("device_id", VStr device);
                       ("message", VStr ("Monitoring Android device: " ++ device)) ]) ;;
                   logger INFO ("ADB Bridge started - monitoring device: " ++ device) ;;
                   monitor_adb_logcat
               end
           end
         else logger ERROR "No Android device available for monitoring"
     | None => logger ERROR "No Android device available for monitoring"
     end)%io ->
  triple (session false None) body (fun _ => handle_owned) (caught handle_owned).
Proof.
  intros ->.
  apply triple_bind with (Q := fun _ => session false None).
  { eapply triple_conseq; [apply (connect_to_desktop_triple false None) | auto | auto |].
    intros e b [E H]. split; [exact E | exact (session_owned _ _ H)]. }
  intros _.
  apply triple_bind with (Q := fun _ => session false None).
  { eapply triple_conseq;
      [apply (triple_env_only _ (session false None)), env_only_select_device
      | auto | auto |].
    intros e b [E H]. split; [exact E | exact (session_owned _ _ H)]. }
  intros d.
  apply triple_bind with (Q := fun _ => session false None).
  { intros st H. exact H. }
  intros _.
  assert (L : forall lvl msg,
             triple (session false None) (logger lvl msg)
                    (fun _ => handle_owned) (caught handle_owned)).
  { intros lvl msg st H. exact (session_owned _ _ H). }
  destruct d as [device|]; [|apply L].
  destruct (truthy device); [|apply L].
  apply triple_bind
    with (Q := fun r b => match r with
                          | Some q => session false (Some q) b
                          | None => session false None b
                          end).
  { eapply triple_conseq; [apply (start_adb_logcat_triple false None device) | auto | auto |].
    intros e b []. }
  intros [q|]; [|apply L].
  apply triple_bind with (Q := fun _ => session true (Some q)).
  { intros st [_ H]. split; [reflexivity | exact H]. }
  intros _. apply triple_get_self. intros b' Hb'.
  destruct (desktop_connection b') as [c|].
  - apply triple_bind with (Q := fun _ => session true (Some q)).
    { eapply triple_conseq;
        [apply (triple_env_only _ (session true (Some q))), env_only_ws_send | | auto |].
      - intros b ->. exact Hb'.
      - intros e b [E H]. split; [exact E | exact (active_owned _ _ H)]. }
    intros _.
    apply triple_bind with (Q := fun _ => session true (Some q)).
    { intros st H. exact H. }
    intros _.
    eapply triple_conseq; [apply (monitor_adb_logcat_triple true (Some q)) | auto | |].
    + intros u b H. exact (session_owned _ _ H).
    + intros e b [].
  - intros st Est; cbn; rewrite Est. split; [reflexivity | exact (active_owned _ _ Hb')].
Qed.

(** [start_monitoring] keeps the handle owned and does not raise. *)
Lemma start_monitoring_triple :
  triple handle_owned start_monitoring (fun _ => handle_owned) never.
Proof.
  unfold start_monitoring. apply triple_get_self. intros b Own.
  destruct (is_monitoring b) eqn:Hm.
  - intros st H. cbn. now rewrite H.
  - eapply triple_try_except with (R := caught handle_owned).
    + eapply triple_conseq;
        [apply start_monitoring_body_triple; reflexivity | | auto | auto].
      intros b' ->. split; [exact Hm | exact (Own Hm)].
    + intros e _.
      apply triple_bind with (Q := fun _ => handle_owned).
      * intros st [_ H]. exact H.
      * intros _. eapply triple_conseq; [apply stop_monitoring_triple | auto | | auto].
        intros u b0 H. exact (session_owned _ _ H).
    + intros e b0 F C. exact (caught_not_passed _ _ _ _ F C).
Qed.

Lemma idle_loop_triple (P : ADBBridge -> Prop) (n : nat) :
  triple P (idle_loop n) (fun _ => P) (cancelled P).
Proof.
  induction n as [|n IH]; cbn [idle_loop]; apply triple_get_self; intros b Hb;
    destruct (negb (is_monitoring b)).
  - intros st Est; cbn; rewrite Est. exact Hb.
  - intros st Est; cbn; rewrite Est. split; [reflexivity | exact Hb].
  - intros st Est; cbn; rewrite Est. exact Hb.
  - apply triple_bind with (Q := fun _ => P).
    + intros st Est; cbn; rewrite Est. exact Hb.
    + intros _. exact IH.
Qed.

(** [run] ends with the session idle and no process handle: it returns,
    or the cancellation met in the idle loop passes through it once
    [stop_monitoring] has run. *)
Lemma run_triple :
  triple handle_owned run (fun _ => session false None)
         (cancelled (session false None)).
Proof.
  unfold run. apply triple_bind with (Q := fun _ => handle_owned).
  { intros st H. exact H. }
  intros _.
  apply triple_try_finally
    with (Q := fun _ => handle_owned) (R := cancelled handle_owned).
  - apply triple_try_except with (R := cancelled handle_owned).
    + apply triple_try_except with (R := cancelled handle_owned).
      * apply triple_bind with (Q := fun _ => handle_owned).
        { eapply triple_conseq; [apply start_monitoring_triple | auto | auto |].
          intros e b []. }
        intros _. apply triple_bind with (Q := fun _ => handle_owned).
        { intros st H. exact H. }
        intros n. apply idle_loop_triple.
      * intros e K st [-> _]. discriminate K.
      * intros e b _ H. exact H.
    + intros e K st [-> _]. discriminate K.
    + intros e b _ H. exact H.
  - intros _. eapply triple_conseq; [apply stop_monitoring_triple | auto | auto |].
    intros e b [].
  - intros e st [-> H]. pose proof (stop_monitoring_triple st H) as T.
    destruct (stop_monitoring st) as [[u|e2] st2]; [|destruct T].
    split; [reflexivity | exact T].
Qed.

(** A new object owns no handle; the public methods keep it so and
    return. *)
Lemma new_bridge_owned (port : Z) (eps pps : dict Re.Pattern) :
  handle_owned (new_bridge port eps pps).
Proof. intros _. reflexivity. Qed.



(** X20: for every finite run of the child process and every finite
    wait before the operator's interrupt, [run] ends either by returning or
    by the [asyncio.CancelledError] that the interrupt raises at the idle
    sleep - which none of its handlers catches - and in both cases
    [stop_monitoring] has run: the monitoring flag is cleared and no process
    handle is left. *)
Lemma run_ends_idle (st : state) :
  handle_owned (self st) ->
  (fst (run st) = Ret tt \/ fst (run st) = Raise CancelledError)
  /\ is_monitoring (self (snd (run st))) = false
  /\ adb_process (self (snd (run st))) = None.
Proof.
  intros H. pose proof (run_triple st H) as T.
  destruct (run st) as [[[]|e] st']; cbn [fst snd].
  - destruct T as [T1 T2]. auto.
  - destruct T as [-> [T1 T2]]. auto.
Qed.

Lemma run_ends_idle_witness :
  fst (run (mkState sample_bridge interrupted_world)) = Raise CancelledError
  /\ closed (trace (env (snd (run (mkState sample_bridge interrupted_world))))) = [1]
  /\ ((fst (run (mkState sample_bridge interrupted_world)) = Ret tt
       \/ fst (run (mkState sample_bridge interrupted_world)) = Raise CancelledError)
      /\ is_monitoring (self (snd (run (mkState sample_bridge interrupted_world))))
         = false
      /\ adb_process (self (snd (run (mkState sample_bridge interrupted_world))))
         = None).
Proof.
  split; [vm_compute; reflexivity|]. split; [vm_compute; reflexivity|].
  apply (run_ends_idle (mkState sample_bridge interrupted_world)).
  apply new_bridge_owned.
Defined.

End Ownership.

(** ** What the patterns of the catalog look for *)

Section Signatures.

Lemma run_lits_then (ic : bool) (w : string) (rest : Re.regex)
    (s : string) (c : Re.caps) (k : Re.cont) :
  Re.run ic (lits_then w rest) s c k =
    match after_prefix ic w s with
    | Some s' => Re.run ic rest s' c k
    | None => None
    end.
Proof.
  revert s. induction w as [|p w IH]; intros s; cbn; [reflexivity|].
  destruct s as [|x s]; [reflexivity|].
  destruct (Re.char_eq ic p x); [apply IH | reflexivity].
Qed.

Lemma after_prefix_ci (w s rest : string) :
  after_prefix true w s = Some rest <->
  exists mid, s = mid ++ rest /\ lower_str mid = lower_str w.
Proof.
  revert s. induction w as [|p w IH]; intros s; cbn.
  - split.
    + intros H. injection H as ->. now exists "".
    + intros (mid & -> & E). destruct mid; [reflexivity | discriminate].
  - destruct s as [|x s].
    + split; [discriminate|].
      intros (mid & E & L). destruct mid; cbn in *; [discriminate|].
      destruct rest; discriminate.
    + unfold Re.char_eq. destruct (Ascii.eqb (lower x) (lower p)) eqn:E.
      * apply Ascii.eqb_eq in E. rewrite IH. split.
        -- intros (mid & -> & L). exists (String x mid). cbn. now rewrite E, L.
        -- intros (mid & E' & L). destruct mid as [|y mid]; [discriminate|].
           cbn in E', L. injection E' as <- ->. injection L as _ L.
           now exists mid.
      * split; [discriminate|].
        intros (mid & E' & L). destruct mid as [|y mid]; [discriminate|].
        cbn in E', L. injection E' as <- ->. injection L as L _.
        rewrite L, Ascii.eqb_refl in E. discriminate.
Qed.

(** [search] succeeds exactly when the pattern matches at the head of some
    suffix. *)
Lemma found_iff (p : Re.Pattern) (m : string) :
  Re.found p m = true <->
  exists pre s, m = pre ++ s
    /\ Re.run (Re.ignorecase p) (Re.prog p) s [] Re.accept <> None.
Proof.
  split.
  - unfold Re.found, Re.search. generalize 0.
    induction m as [|x m IH]; intros n; cbn [Re.search_from].
    + unfold Re.match_here.
      destruct (Re.run _ _ "" [] Re.accept) as [[s' c]|] eqn:E; [|discriminate].
      intros _. exists "", "". split; [reflexivity | congruence].
    + unfold Re.match_here at 1.
      destruct (Re.run _ _ (String x m) [] Re.accept) as [[s' c]|] eqn:E.
      * intros _. exists "", (String x m). split; [reflexivity | congruence].
      * intros H. destruct (IH (S n) H) as (pre & s & -> & R).
        exists (String x pre), s. now split.
  - intros (pre & s & -> & R). now apply found_in.
Qed.

Lemma found_lits (p : Re.Pattern) (w m : string) :
  Re.ignorecase p = true -> Re.prog p = lits w ->
  (Re.found p m = true <-> contains_ci w m).
Proof.
  intros Hi Hp. rewrite found_iff, Hi, Hp. unfold lits. split.
  - intros (pre & s & -> & R). rewrite run_lits_then in R.
    destruct (after_prefix true w s) as [rest|] eqn:E; [|congruence].
    apply after_prefix_ci in E. destruct E as (mid & -> & L).
    now exists pre, mid, rest.
  - intros (pre & mid & post & -> & L). exists pre, (mid ++ post).
    split; [reflexivity|]. rewrite run_lits_then.
    assert (E : after_prefix true w (mid ++ post) = Some post)
      by (apply after_prefix_ci; now exists mid).
    rewrite E. cbn. discriminate.
Qed.

Lemma run_alts (ws : list string) (s : string) :
  ws <> [] ->
  (Re.run true (alts ws) s [] Re.accept <> None <->
   exists w, In w ws /\ after_prefix true w s <> None).
Proof.
  induction ws as [|w ws IH]; [congruence|]. intros _.
  assert (L : Re.run true (lits w) s [] Re.accept <> None
              <-> after_prefix true w s <> None).
  { unfold lits. rewrite run_lits_then.
    destruct (after_prefix true w s); cbn; unfold Re.accept; split; congruence. }
  destruct ws as [|w' ws].
  - cbn [alts]. rewrite L. split.
    + intros H. exists w. split; [now left | exact H].
    + intros (w0 & [<-|[]] & H). exact H.
  - change (alts (w :: w' :: ws)) with (Re.Branch (lits w) (alts (w' :: ws))).
    cbn [Re.run].
    destruct (Re.run true (lits w) s [] Re.accept) eqn:E.
    + split; [|discriminate]. intros _. exists w. split; [now left|].
      apply L. congruence.
    + rewrite IH by discriminate. split.
      * intros (w0 & I & H). exists w0. split; [now right | exact H].
      * intros (w0 & [<-|I] & H).
        -- apply L in H. congruence.
        -- now exists w0.
Qed.

Lemma found_alts (p : Re.Pattern) (ws : list string) (m : string) :
  Re.ignorecase p = true -> Re.prog p = alts ws -> ws <> [] ->
  (Re.found p m = true <-> exists w, In w ws /\ contains_ci w m).
Proof.
  intros Hi Hp Hn. rewrite found_iff, Hi, Hp. split.
  - intros (pre & s & -> & R). apply run_alts in R; [|exact Hn].
    destruct R as (w & I & A). exists w. split; [exact I|].
    destruct (after_prefix true w s) as [rest|] eqn:E; [|congruence].
    apply after_prefix_ci in E. destruct E as (mid & -> & L).
    now exists pre, mid, rest.
  - intros (w & I & pre & mid & post & -> & L). exists pre, (mid ++ post).
    split; [reflexivity|]. apply run_alts; [exact Hn|]. exists w.
    split; [exact I|].
    assert (E : after_prefix true w (mid ++ post) = Some post)
      by (apply after_prefix_ci; now exists mid).
    congruence.
Qed.

Lemma run_rest_of_line (s : string) :
  Re.run true rest_of_line s [] Re.accept <> None <->
  exists c post, s = String c post /\ c <> newline.
Proof.
  unfold rest_of_line. cbn -[Re.rep_more newline]. destruct s as [|x s].
  - split; [intros H; now elim H|]. intros (c & post & E & _). discriminate.
  - destruct (Ascii.eqb x newline) eqn:E.
    + apply Ascii.eqb_eq in E. split; [intros H; now elim H|].
      intros (c & post & E' & N). injection E' as <- _. contradiction.
    + apply Ascii.eqb_neq in E. split.
      * intros _. now exists x, s.
      * intros _. apply rep_more_total. intros s' c'. cbn. discriminate.
Qed.

End Signatures.

Section RuleTables.

(** X1: every error rule written as plain text - all but [fatal_exception],
    [crash_anr] and [native_crash] - is found in a message exactly when the
    message contains that text, the backslashes taken out, in any mix of
    upper and lower case. *)
Theorem literal_rule_is_substring_test
    (name text : string) (p : Re.Pattern) (m : string) :
  In (name, text) error_pattern_sources ->
  ~ In name ["fatal_exception"; "crash_anr"; "native_crash"] ->
  Re.compile text true = Ret p ->
  (Re.found p m = true <-> contains_ci (unescape text) m).
Proof.
  intros I N Hc. cbn in I, N.
  repeat (destruct I as [I|I];
          [injection I as <- <-;
           first [ exfalso; apply N; tauto
                 | vm_compute in Hc; injection Hc as <-;
                   apply found_lits; reflexivity ] |]).
  destruct I.
Qed.

Lemma literal_rule_is_substring_test_witness :
  Re.found (pattern_of "java\.lang\.NullPointerException")
           "Caused by: JAVA.LANG.nullpointerexception at x" = true
  <-> contains_ci (unescape "java\.lang\.NullPointerException")
                  "Caused by: JAVA.LANG.nullpointerexception at x".
Proof.
  apply (literal_rule_is_substring_test "null_pointer").
  - cbn. tauto.
  - cbn. intros [H|[H|[H|[]]]]; discriminate H.
  - vm_compute. reflexivity.
Defined.

(** X2: every permission rule is found in a message exactly when the
    message contains one of the keywords its pattern lists between the
    bars, in any mix of upper and lower case. *)
Theorem permission_rule_is_keyword_test
    (name text : string) (p : Re.Pattern) (m : string) :
  In (name, text) permission_pattern_sources ->
  Re.compile text true = Ret p ->
  (Re.found p m = true <->
   exists w, In w (split "|"%char text) /\ contains_ci w m).
Proof.
  intros I Hc. cbn in I.
  repeat (destruct I as [I|I];
          [injection I as <- <-;
           vm_compute in Hc; injection Hc as <-;
           apply found_alts; [reflexivity | reflexivity | discriminate] |]).
  destruct I.
Qed.

Lemma permission_rule_is_keyword_test_witness :
  Re.found (pattern_of "location|gps|GPS|ACCESS_FINE_LOCATION")
           "no Gps fix" = true
  <-> exists w,
        In w (split "|"%char "location|gps|GPS|ACCESS_FINE_LOCATION")
        /\ contains_ci w "no Gps fix".
Proof.
  apply (permission_rule_is_keyword_test "location").
  - cbn. tauto.
  - vm_compute. reflexivity.
Defined.

Lemma headed_rules_in_source (name head : string) :
  In (name, head) headed_rules -> In (name, head ++ "(.+)") error_pattern_sources.
Proof. cbn. intros [H|[H|[]]]; injection H as <- <-; cbn; tauto. Qed.

(** X3: the rules [fatal_exception] and [crash_anr] are found exactly when
    the message contains their heading text, in any mix of case, followed by
    at least one character that is not a line feed; the heading at the very
    end of the message, or right before a line feed, is not found. *)
Theorem headed_rule_needs_text_after
    (name head : string) (p : Re.Pattern) (m : string) :
  In (name, head) headed_rules ->
  Re.compile (head ++ "(.+)") true = Ret p ->
  (Re.found p m = true <->
   exists pre mid c post,
     m = pre ++ mid ++ String c post
     /\ lower_str mid = lower_str head
     /\ c <> newline).
Proof.
  intros I Hc.
  assert (Hp : Re.ignorecase p = true /\ Re.prog p = lits_then head rest_of_line).
  { cbn in I. destruct I as [I|[I|[]]]; injection I as <- <-;
      vm_compute in Hc; injection Hc as <-; split; reflexivity. }
  destruct Hp as [Hi Hp]. rewrite found_iff, Hi, Hp. split.
  - intros (pre & s & -> & R). rewrite run_lits_then in R.
    destruct (after_prefix true head s) as [rest|] eqn:E; [|congruence].
    apply after_prefix_ci in E. destruct E as (mid & -> & L).
    apply run_rest_of_line in R. destruct R as (c & post & -> & N).
    now exists pre, mid, c, post.
  - intros (pre & mid & c & post & -> & L & N).
    exists pre, (mid ++ String c post). split; [reflexivity|].
    rewrite run_lits_then.
    assert (E : after_prefix true head (mid ++ String c post) = Some (String c post))
      by (apply after_prefix_ci; now exists mid).
    rewrite E. apply run_rest_of_line. now exists c, post.
Qed.

Lemma headed_rule_needs_text_after_witness :
  Re.found (pattern_of "FATAL EXCEPTION: (.+)") "FATAL EXCEPTION: " = true
  <-> exists pre mid c post,
        "FATAL EXCEPTION: " = pre ++ mid ++ String c post
        /\ lower_str mid = lower_str "FATAL EXCEPTION: "
        /\ c <> newline.
Proof.
  apply (headed_rule_needs_text_after "fatal_exception" "FATAL EXCEPTION: ").
  - cbn. tauto.
  - vm_compute. reflexivity.
Defined.

End RuleTables.

(** ** The package name *)

Section PackageName.

Lemma package_pattern_compiled :
  Re.compile "at ([a-zA-Z0-9_\.]+)\." false = Ret package_pattern.
Proof. vm_compute. reflexivity. Qed.

Lemma str_app_assoc (a b c : string) : (a ++ b) ++ c = a ++ b ++ c.
Proof. induction a as [|x a IH]; cbn; [reflexivity | now rewrite IH]. Qed.

Lemma str_length_app (a b : string) :
  String.length (a ++ b) = String.length a + String.length b.
Proof. induction a as [|c a IH]; cbn; [reflexivity | now rewrite IH]. Qed.

Lemma substring_head (a b : string) : substring 0 (String.length a) (a ++ b) = a.
Proof.
  induction a as [|c a IH]; cbn.
  - destruct b; reflexivity.
  - now rewrite IH.
Qed.

Lemma consumed_app (a b : string) : Re.consumed (a ++ b) b = a.
Proof.
  unfold Re.consumed. rewrite str_length_app.
  replace (String.length a + String.length b - String.length b)
    with (String.length a) by lia.
  apply substring_head.
Qed.

Lemma after_prefix_cs (w s rest : string) :
  after_prefix false w s = Some rest <-> s = w ++ rest.
Proof.
  revert s. induction w as [|p w IH]; intros s; cbn.
  - split; [intros H; now injection H as -> | intros ->; reflexivity].
  - destruct s as [|x s]; [split; discriminate|].
    unfold Re.char_eq. destruct (Ascii.eqb x p) eqn:E.
    + apply Ascii.eqb_eq in E. subst x. rewrite IH. split.
      * intros ->. reflexivity.
      * intros H. now injection H as ->.
    + apply Ascii.eqb_neq in E. split; [discriminate|].
      intros H. injection H as -> _. contradiction.
Qed.

(** A greedy run over a character set takes characters of the set only,
    and hands the rest to what follows. *)
Lemma rep_more_set (rs : list (ascii * ascii)) (fuel : nat) (extra : option nat)
    (s : string) (c : Re.caps) (k : Re.cont) (r : string * Re.caps) :
  Re.rep_more (Re.run false (Re.CharSet false rs)) fuel extra s c k = Some r ->
  exists u v, s = u ++ v /\ all_chars (Re.in_ranges rs) u = true /\ k v c = Some r.
Proof.
  revert extra s. induction fuel as [|f IH]; intros extra s; cbn [Re.rep_more].
  - intros H. now exists "", s.
  - destruct (match extra with Some 0 => false | _ => true end);
      [|intros H; now exists "", s].
    cbn [Re.run]. destruct s as [|x s'].
    + intros H. now exists "", "".
    + cbn [xorb]. unfold Re.in_set.
      destruct (Re.in_ranges rs x) eqn:Ex; cbn [xorb].
      * destruct (Nat.ltb (String.length s') (String.length (String x s'))).
        -- destruct (Re.rep_more _ f _ s' c k) as [r0|] eqn:E.
           ++ intros H. injection H as ->.
              destruct (IH _ _ E) as (u & v & -> & A & K).
              exists (String x u), v. cbn. rewrite Ex, A. auto.
           ++ intros H. now exists "", (String x s').
        -- intros H. now exists "", (String x s').
      * intros H. now exists "", (String x s').
Qed.

(** A match of the package pattern at the head of [s]: [at ], a non-empty
    package of set characters captured by the group, and a dot. *)
Lemma run_package (s s' : string) (caps : Re.caps) :
  Re.run false (Re.prog package_pattern) s [] Re.accept = Some (s', caps) ->
  exists pkg,
    caps = [(1, pkg)]
    /\ s = "at " ++ pkg ++ "." ++ s'
    /\ pkg <> ""
    /\ all_chars ident_char pkg = true.
Proof.
  unfold package_pattern. cbn [Re.prog]. rewrite run_lits_then.
  destruct (after_prefix false "at " s) as [s0|] eqn:E; [|discriminate].
  apply after_prefix_cs in E. subst s.
  cbn [Re.run]. unfold Re.rep. cbn [Re.rep_need Re.run].
  destruct s0 as [|x s1]; [discriminate|].
  cbn [xorb]. unfold Re.in_set.
  destruct (Re.in_ranges package_class x) eqn:Ex; [|discriminate].
  intros H. apply rep_more_set in H. destruct H as (u & v & -> & A & K).
  unfold lits in K. rewrite run_lits_then in K.
  destruct (after_prefix false "." v) as [v'|] eqn:Ev; [|discriminate].
  apply after_prefix_cs in Ev. subst v.
  cbn -[Re.consumed append] in K.
  change (String x (u ++ "." ++ v')) with (String x u ++ "." ++ v') in K.
  rewrite consumed_app in K. unfold Re.accept in K. injection K as <- <-.
  exists (String x u). split; [reflexivity|]. split; [reflexivity|].
  split; [discriminate|].
  cbn [all_chars]. unfold ident_char at 1. rewrite Ex. exact A.
Qed.

Lemma search_from_some (p : Re.Pattern) (n : nat) (m : string) (mt : Re.Match) :
  Re.search_from p n m = Some mt ->
  exists pre s s',
    m = pre ++ s
    /\ Re.run (Re.ignorecase p) (Re.prog p) s [] Re.accept = Some (s', Re.m_groups mt).
Proof.
  revert n. induction m as [|x m IH]; intros n; cbn [Re.search_from].
  - unfold Re.match_here.
    destruct (Re.run _ _ "" [] Re.accept) as [[s' c]|] eqn:E; [|discriminate].
    intros H. injection H as <-. now exists "", "", s'.
  - unfold Re.match_here at 1.
    destruct (Re.run _ _ (String x m) [] Re.accept) as [[s' c]|] eqn:E.
    + intros H. injection H as <-. now exists "", (String x m), s'.
    + intros H. destruct (IH _ H) as (pre & s & s' & -> & R).
      now exists (String x pre), s, s'.
Qed.

(** The package name taken from a message, when there is one, is a
    non-empty run of set characters that stands in the message between [at ]
    and a dot. *)
Lemma package_of_some (message pkg : string) :
  package_of message = Some pkg ->
  pkg <> ""
  /\ all_chars ident_char pkg = true
  /\ contains ("at " ++ pkg ++ ".") message.
Proof.
  unfold package_of, Re.search.
  destruct (Re.search_from package_pattern 0 message) as [mt|] eqn:E; [|discriminate].
  apply search_from_some in E. destruct E as (pre & s & s' & -> & R).
  apply run_package in R. destruct R as (pkg' & C & -> & N & A).
  unfold Re.group. rewrite C. cbn. intros H. injection H as <-.
  split; [exact N|]. split; [exact A|].
  exists pre, s'. cbn [append]. now rewrite str_app_assoc.
Qed.

End PackageName.

(** ** The events of the classifier *)

Section Events.

Lemma rep_more_backtracks (rs : list (ascii * ascii)) (u v : string) (fuel : nat)
    (c : Re.caps) (k : Re.cont) :
  all_chars (Re.in_ranges rs) u = true ->
  String.length u <= fuel ->
  k v c <> None ->
  Re.rep_more (Re.run false (Re.CharSet false rs)) fuel None (u ++ v) c k <> None.
Proof.
  revert fuel. induction u as [|x u IH]; intros fuel A L K.
  - cbn [append]. destruct fuel as [|f]; cbn [Re.rep_more]; [exact K|].
    destruct (Re.run false (Re.CharSet false rs) v c _); [discriminate | exact K].
  - destruct fuel as [|f]; [cbn in L; lia|].
    cbn in A. apply andb_prop in A. destruct A as [Ax Au].
    cbn [Re.rep_more append Re.run xorb]. unfold Re.in_set. rewrite Ax. cbn [xorb].
    assert (T : Nat.ltb (String.length (u ++ v)) (String.length (String x (u ++ v)))
                = true) by (apply Nat.ltb_lt; cbn; lia).
    rewrite T.
    assert (N : Re.rep_more (Re.run false (Re.CharSet false rs)) f None (u ++ v) c k
                <> None) by (apply IH; [exact Au | cbn in L; lia | exact K]).
    destruct (Re.rep_more _ f None (u ++ v) c k); [discriminate | congruence].
Qed.

(** The package pattern matches at the head of [at <pkg>.], whatever
    follows. *)
Lemma run_package_complete (pkg rest : string) :
  pkg <> "" -> all_chars ident_char pkg = true ->
  Re.run false (Re.prog package_pattern) ("at " ++ pkg ++ "." ++ rest) [] Re.accept
    <> None.
Proof.
  intros N A. unfold package_pattern. cbn [Re.prog]. rewrite run_lits_then.
  assert (E : after_prefix false "at " ("at " ++ pkg ++ "." ++ rest)
              = Some (pkg ++ "." ++ rest)) by (now apply after_prefix_cs).
  rewrite E. destruct pkg as [|x u]; [congruence|].
  cbn [all_chars] in A. apply andb_prop in A. destruct A as [Ax Au].
  cbn [Re.run append]. unfold Re.rep. cbn [Re.rep_need Re.run xorb].
  unfold Re.in_set. unfold ident_char in Ax. rewrite Ax. cbn [xorb].
  apply rep_more_backtracks.
  - exact Au.
  - rewrite str_length_app. lia.
  - cbn. discriminate.
Qed.

(** X4: a package name is extracted exactly when the message contains
    [at ], a non-empty run of letters, digits, underscores and dots, and a
    dot; and the name extracted is itself such a run standing in the message
    between [at ] and a dot. *)
Theorem package_name_extracted (message : string) :
  (package_of message <> None <->
   exists pkg, pkg <> "" /\ all_chars ident_char pkg = true
               /\ contains ("at " ++ pkg ++ ".") message)
  /\ (forall pkg, package_of message = Some pkg ->
        pkg <> "" /\ all_chars ident_char pkg = true
        /\ contains ("at " ++ pkg ++ ".") message).
Proof.
  split; [|intros pkg; apply package_of_some]. split.
  - destruct (package_of message) as [pkg|] eqn:E; [|congruence].
    intros _. exists pkg. now apply package_of_some.
  - intros (pkg & N & A & pre & post & ->).
    unfold package_of, Re.search.
    assert (R : Re.run false (Re.prog package_pattern)
                  (("at " ++ pkg ++ ".") ++ post) [] Re.accept <> None).
    { cbn [append]. rewrite str_app_assoc. now apply run_package_complete. }
    pose proof (search_from_suffix package_pattern pre _ 0 R) as S.
    destruct (Re.search_from package_pattern 0 (pre ++ ("at " ++ pkg ++ ".") ++ post))
      as [mt|] eqn:E; [|congruence].
    apply search_from_some in E. destruct E as (pre' & s & s' & _ & R').
    apply run_package in R'. destruct R' as (pkg' & C & _).
    unfold Re.group. rewrite C. cbn. discriminate.
Qed.

(** The answer of [parse_log_line] on a line that passes the guards and
    carries the rule [name]. *)
Lemma parse_log_line_event
    (b : ADBBridge) (line p0 p1 p2 p3 p4 message name : string) :
  truthy (strip line) = true ->
  split_max space 5 line = [p0; p1; p2; p3; p4; message] ->
  first_match (error_patterns b) message = Some name ->
  truthy name = true ->
  parse_log_line b line =
    Ret (Some (event_of b line (p0 ++ " " ++ p1 ++ " " ++ p2) message name)).
Proof.
  intros Ht Hs Hf Hn. unfold parse_log_line. rewrite Ht, Hs.
  cbn [negb List.length Nat.ltb Nat.leb].
  unfold parse_parts. cbn [index nth_error bind List.length Nat.ltb Nat.leb].
  rewrite package_pattern_compiled. cbn [bind]. rewrite Hf, Hn.
  unfold event_of, permission_of, package_of, opt_eqb. reflexivity.
Qed.

Lemma parse_log_line_returns (b : ADBBridge) (line : string) :
  returns (parse_log_line b line).
Proof.
  destruct (parse_log_line b line) as [r|e] eqn:E; [now exists r|].
  exfalso. revert E. unfold parse_log_line.
  destruct (negb (truthy (strip line))); [discriminate|].
  destruct (Nat.ltb (List.length (split_max space 5 line)) 6) eqn:L; [discriminate|].
  apply Nat.ltb_ge in L.
  destruct (parse_parts_returns b line _ L) as [r ->]. discriminate.
Qed.

Lemma truthy_nonempty (s : string) : truthy s = true <-> s <> "".
Proof. destruct s; cbn; split; congruence. Qed.

(** X5: [parse_log_line] answers with an event exactly when the line is
    not blank, has six parts, and the first entry of the rule table whose
    pattern is found in the sixth part - the entries before it not being
    found - has a non-empty name; in every other case it answers nothing. *)
Theorem event_iff_rule_found (b : ADBBridge) (line : string) :
  ((exists ev, parse_log_line b line = Ret (Some ev)) <->
   exists message pre name p post,
     parseable line message
     /\ error_patterns b = (pre ++ (name, p) :: post)%list
     /\ Forall (fun e => Re.found (snd e) message = false) pre
     /\ Re.found p message = true
     /\ name <> "")
  /\ ((~ exists message pre name p post,
          parseable line message
          /\ error_patterns b = (pre ++ (name, p) :: post)%list
          /\ Forall (fun e => Re.found (snd e) message = false) pre
          /\ Re.found p message = true
          /\ name <> "") ->
      parse_log_line b line = Ret None).
Proof.
  assert (I : (exists ev, parse_log_line b line = Ret (Some ev)) <->
              exists message pre name p post,
                parseable line message
                /\ error_patterns b = (pre ++ (name, p) :: post)%list
                /\ Forall (fun e => Re.found (snd e) message = false) pre
                /\ Re.found p message = true
                /\ name <> "").
  { split.
    - intros (ev & H).
      destruct (parse_log_line_some b line ev H) as [message P].
      pose proof (parse_log_line_parseable b line message P) as Q.
      destruct (first_match (error_patterns b) message) as [name|] eqn:F;
        [|congruence].
      destruct (truthy name) eqn:T; [|congruence].
      apply first_match_spec in F. destruct F as (pre & p & post & E & Fp & Hpre).
      exists message, pre, name, p, post.
      repeat (split; [assumption|]). now apply truthy_nonempty.
    - intros (message & pre & name & p & post & P & E & Hpre & Fp & N).
      pose proof (parse_log_line_parseable b line message P) as Q.
      rewrite E, (first_match_skip pre post name message p Hpre Fp) in Q.
      apply truthy_nonempty in N. rewrite N in Q.
      destruct Q as (ev & H & _). now exists ev. }
  split; [exact I|].
  intros N. destruct (parse_log_line_returns b line) as [[ev|] E]; [|exact E].
  exfalso. apply N, I. now exists ev.
Qed.

Lemma mem_In (x : string) (l : list string) : mem x l = true <-> In x l.
Proof.
  unfold mem. rewrite existsb_exists. split.
  - intros (y & I & E). apply String.eqb_eq in E. now subst.
  - intros I. exists x. split; [exact I | apply String.eqb_refl].
Qed.

Lemma event_of_parse (b : ADBBridge) (line : string) (ev : Event) :
  parse_log_line b line = Ret (Some ev) ->
  exists p0 p1 p2 p3 p4 message name,
    split_max space 5 line = [p0; p1; p2; p3; p4; message]
    /\ first_match (error_patterns b) message = Some name
    /\ ev = event_of b line (p0 ++ " " ++ p1 ++ " " ++ p2) message name.
Proof.
  intros H. destruct (parse_log_line_some b line ev H) as [message P].
  pose proof (parse_log_line_parseable b line message P) as Q.
  destruct P as (Ht & p0 & p1 & p2 & p3 & p4 & Hs).
  destruct (first_match (error_patterns b) message) as [name|] eqn:F; [|congruence].
  destruct (truthy name) eqn:T; [|congruence].
  exists p0, p1, p2, p3, p4, message, name. split; [exact Hs|]. split; [exact F|].
  pose proof (parse_log_line_event b line p0 p1 p2 p3 p4 message name Ht Hs F T) as E.
  congruence.
Qed.

(** X6: every event has the nine keys [type], [timestamp], [device_id],
    [error_type], [permission_type], [package_name], [message],
    [full_log_line], [severity], in this order; [type] is [android_error],
    [device_id] is the object's, [timestamp] is the first three parts of the
    line joined by spaces, [message] is the sixth part stripped and
    [full_log_line] the line stripped. *)
Theorem event_shape (b : ADBBridge) (line : string) (ev : Event) :
  parse_log_line b line = Ret (Some ev) ->
  keys ev = [ "type"; "timestamp"; "device_id"; "error_type"; "permission_type";
              "package_name"; "message"; "full_log_line"; "severity" ]
  /\ field "type" ev = Some (VStr "android_error")
  /\ field "device_id" ev = Some (opt_str (device_id b))
  /\ field "full_log_line" ev = Some (VStr (strip line))
  /\ exists p0 p1 p2 p3 p4 message,
       split_max space 5 line = [p0; p1; p2; p3; p4; message]
       /\ field "timestamp" ev = Some (VStr (p0 ++ " " ++ p1 ++ " " ++ p2))
       /\ field "message" ev = Some (VStr (strip message))
       /\ field "package_name" ev = Some (opt_str (package_of message)).
Proof.
  intros H.
  destruct (event_of_parse b line ev H)
    as (p0 & p1 & p2 & p3 & p4 & message & name & Hs & _ & ->).
  repeat (split; [reflexivity|]).
  exists p0, p1, p2, p3, p4, message. repeat split. exact Hs.
Qed.

Lemma event_shape_witness :
  field "type" sample_event = Some (VStr "android_error").
Proof.
  apply (event_shape sample_bridge
           "01-01 00:00:00.000 1-1/1 E AndroidRuntime: FATAL EXCEPTION: main").
  vm_compute. reflexivity.
Defined.

(** X7: the severity of an event follows from its rule: [critical] exactly
    for [fatal_exception], [native_crash] and [out_of_memory], [high]
    exactly for [permission_denied], [medium] for every other rule. *)
Theorem event_severity (b : ADBBridge) (line : string) (ev : Event) :
  parse_log_line b line = Ret (Some ev) ->
  exists name sev,
    field "error_type" ev = Some (VStr name)
    /\ field "severity" ev = Some (VStr sev)
    /\ In sev ["critical"; "high"; "medium"]
    /\ (sev = "critical" <->
          In name ["fatal_exception"; "native_crash"; "out_of_memory"])
    /\ (sev = "high" <-> name = "permission_denied").
Proof.
  intros H.
  destruct (event_of_parse b line ev H)
    as (p0 & p1 & p2 & p3 & p4 & message & name & _ & _ & ->).
  exists name, (_get_error_severity name).
  split; [reflexivity|]. split; [reflexivity|].
  unfold _get_error_severity.
  destruct (mem name ["fatal_exception"; "native_crash"; "out_of_memory"]) eqn:C.
  - apply mem_In in C. split; [cbn; tauto|]. split; [tauto|].
    split; [discriminate|]. intros ->. cbn in C.
    destruct C as [C|[C|[C|[]]]]; discriminate C.
  - assert (NC : ~ In name ["fatal_exception"; "native_crash"; "out_of_memory"])
      by (intros I; apply mem_In in I; congruence).
    destruct (mem name ["permission_denied"]) eqn:P.
    + apply mem_In in P. destruct P as [<-|[]].
      split; [cbn; tauto|]. split; [|tauto]. split; [discriminate | tauto].
    + assert (NP : name <> "permission_denied").
      { intros ->. cbn in P. discriminate. }
      split; [cbn; tauto|]. split; split; try discriminate; tauto || congruence.
Qed.

Lemma event_severity_witness :
  exists name sev,
    field "error_type" sample_event = Some (VStr name)
    /\ field "severity" sample_event = Some (VStr sev)
    /\ In sev ["critical"; "high"; "medium"]
    /\ (sev = "critical" <->
          In name ["fatal_exception"; "native_crash"; "out_of_memory"])
    /\ (sev = "high" <-> name = "permission_denied").
Proof.
  apply (event_severity sample_bridge
           "01-01 00:00:00.000 1-1/1 E AndroidRuntime: FATAL EXCEPTION: main").
  vm_compute. reflexivity.
Defined.

End Events.

(** ** The devices *)

Section Devices.

Lemma count_app (c : ascii) (a b : string) : count c (a ++ b) = count c a + count c b.
Proof. induction a as [|x a IH]; cbn; [reflexivity | rewrite IH; lia]. Qed.

Lemma cut_at_first (sep : ascii) (a b : string) :
  count sep a = 0 -> cut sep (a ++ String sep b) = Some (a, b).
Proof.
  induction a as [|x a IH]; cbn; intros H.
  - now rewrite Ascii.eqb_refl.
  - destruct (Ascii.eqb x sep); [discriminate|]. now rewrite IH.
Qed.

(** Splitting undoes joining when no part holds the separator. *)
Lemma split_max_of_join (sep : ascii) (p : string) (rest : list string) (n : nat) :
  Forall (fun q => count sep q = 0) (p :: rest) ->
  List.length rest <= n ->
  split_max sep n (join (String sep "") (p :: rest)) = p :: rest.
Proof.
  revert p n. induction rest as [|q rest IH]; intros p n F L.
  - inversion F; subst. cbn [join]. destruct n; cbn; [reflexivity|].
    assert (E : cut sep p = None) by now apply cut_none.
    now rewrite E.
  - inversion F; subst. destruct n as [|n]; [cbn in L; lia|].
    change (join (String sep "") (p :: q :: rest))
      with (p ++ String sep (join (String sep "") (q :: rest))).
    cbn [split_max]. rewrite cut_at_first by assumption.
    rewrite IH; [reflexivity | assumption | cbn in L; lia].
Qed.

Lemma join_length (sep : ascii) (p : string) (rest : list string) :
  List.length rest <= String.length (join (String sep "") (p :: rest)).
Proof.
  revert p. induction rest as [|q rest IH]; intros p; [cbn; lia|].
  change (join (String sep "") (p :: q :: rest))
    with (p ++ String sep (join (String sep "") (q :: rest))).
  rewrite str_length_app. cbn [String.length List.length].
  specialize (IH q). lia.
Qed.

Lemma split_of_join (sep : ascii) (p : string) (rest : list string) :
  Forall (fun q => count sep q = 0) (p :: rest) ->
  split sep (join (String sep "") (p :: rest)) = p :: rest.
Proof.
  intros F. unfold split. apply split_max_of_join; [exact F | apply join_length].
Qed.

Lemma ends_text_app (a b : string) : ends_text b = true -> ends_text (a ++ b) = true.
Proof.
  intros H. induction a as [|x a IH]; [exact H|].
  cbn [append ends_text]. destruct (a ++ b) eqn:E; [|exact IH].
  destruct a; cbn in E; [subst b|]; discriminate.
Qed.

Lemma ends_text_has_text (a : string) : ends_text a = true -> has_text a = true.
Proof.
  induction a as [|x a IH]; [discriminate|]. cbn [ends_text has_text].
  destruct a as [|y a].
  - intros H. now rewrite H.
  - intros H. rewrite (IH H). apply orb_true_r.
Qed.

(** [rstrip] takes trailing white space off a text that ends in a letter,
    and nothing more. *)
Lemma rstrip_trailing (a w : string) :
  ends_text a = true -> has_text w = false -> rstrip (a ++ w) = a.
Proof.
  intros E W. induction a as [|x a IH]; [discriminate|].
  cbn [append rstrip]. destruct a as [|y a].
  - cbn [ends_text] in E. cbn [append].
    assert (R : rstrip w = "").
    { apply is_empty_true. rewrite rstrip_empty, W. reflexivity. }
    rewrite R. apply negb_true_iff in E. now rewrite E.
  - cbn [ends_text] in E. rewrite (IH E). cbn [is_empty].
    now rewrite andb_false_r.
Qed.

Lemma ends_text_join (sep : string) (p : string) (rest : list string) :
  Forall (fun q => ends_text q = true) (p :: rest) ->
  ends_text (join sep (p :: rest)) = true.
Proof.
  revert p. induction rest as [|q rest IH]; intros p F; inversion F; subst.
  - exact H1.
  - change (join sep (p :: q :: rest)) with (p ++ sep ++ join sep (q :: rest)).
    apply ends_text_app, ends_text_app, IH. exact H2.
Qed.

Lemma device_line_parsed (serial : string) :
  count tab serial = 0 -> device_of_line (device_line serial) = Some serial.
Proof.
  intros H. unfold device_of_line, device_line.
  rewrite truthy_strip, has_text_app. cbn [has_text]. rewrite orb_true_r.
  change (serial ++ String tab "device")
    with (join (String tab "") [serial; "device"]).
  rewrite split_of_join; [reflexivity|].
  constructor; [exact H|]. constructor; [reflexivity | constructor].
Qed.

Lemma devices_of_device_lines (serials : list string) :
  Forall (fun s => count tab s = 0) serials ->
  devices_of_lines (map device_line serials) = serials.
Proof.
  induction 1 as [|s serials H F IH]; [reflexivity|].
  cbn [map devices_of_lines]. now rewrite device_line_parsed, IH.
Qed.

(** The devices read off a listing are the devices listed, in order. *)
Lemma listing_parsed (serials : list string) :
  Forall (fun s => count tab s = 0 /\ count newline s = 0) serials ->
  devices_of_lines (tl (split newline (strip (listing serials)))) = serials.
Proof.
  intros F. unfold listing, strip.
  assert (L : lstrip (join (String newline "")
                        ("List of devices attached" :: map device_line serials)
                      ++ String newline (String newline ""))
              = join (String newline "")
                  ("List of devices attached" :: map device_line serials)
                ++ String newline (String newline "")).
  { destruct (map device_line serials); reflexivity. }
  rewrite L, rstrip_trailing.
  - rewrite split_of_join.
    + cbn [tl]. apply devices_of_device_lines.
      eapply Forall_impl; [|exact F]. now intros s [H _].
    + constructor; [reflexivity|]. apply Forall_map.
      eapply Forall_impl; [|exact F]. intros s [_ H].
      unfold device_line. rewrite count_app, H. reflexivity.
  - apply ends_text_join. constructor; [reflexivity|]. apply Forall_map.
    apply Forall_forall. intros s _. unfold device_line.
    apply ends_text_app. reflexivity.
  - reflexivity.
Qed.

Lemma get_connected_devices_ok (st : state) (r : completed) :
  devices_answer (env st) = Some r -> returncode r = 0%Z ->
  fst (get_connected_devices st)
    = Ret (devices_of_lines (tl (split newline (strip (stdout r))))).
Proof.
  unfold devices_answer. intros A Z.
  unfold get_connected_devices, try_except, mbind, run_adb_devices, ret.
  cbn [record adb_devices env].
  destruct (next (adb_devices (env st)) None) as [a rest]. cbn [fst] in A. subst a.
  rewrite Z. reflexivity.
Qed.

(** X8: when [adb devices] exits with code 0 and prints the heading, one
    line [serial<TAB>device] per device and an empty line,
    [get_connected_devices] returns exactly these serials, in the order
    printed, and [select_device] the first of them. *)
Theorem listed_devices_are_returned
    (st : state) (serials : list string) (r : completed) :
  Forall (fun s => count tab s = 0 /\ count newline s = 0) serials ->
  devices_answer (env st) = Some r ->
  returncode r = 0%Z ->
  stdout r = listing serials ->
  fst (get_connected_devices st) = Ret serials
  /\ fst (select_device st) = Ret (hd_error serials).
Proof.
  intros F A Z O.
  pose proof (get_connected_devices_ok st r A Z) as G.
  rewrite O, listing_parsed in G by exact F.
  split; [exact G|].
  unfold select_device, mbind.
  destruct (get_connected_devices st) as [[devs|e] st1]; cbn [fst] in G;
    [|discriminate].
  injection G as ->. destruct serials as [|d [|d' ds]]; reflexivity.
Qed.

Lemma listed_devices_are_returned_witness :
  fst (get_connected_devices (mkState sample_bridge one_device_world))
    = Ret ["emulator-5554"]
  /\ fst (select_device (mkState sample_bridge one_device_world))
     = Ret (hd_error ["emulator-5554"]).
Proof.
  apply (listed_devices_are_returned (mkState sample_bridge one_device_world)
           ["emulator-5554"] one_device_listing).
  - constructor; [split; reflexivity | constructor].
  - reflexivity.
  - reflexivity.
  - reflexivity.
Defined.

Lemma get_connected_devices_failed (st : state) :
  (forall r, devices_answer (env st) = Some r -> returncode r <> 0%Z) ->
  fst (get_connected_devices st) = Ret [].
Proof.
  unfold devices_answer. intros A.
  unfold get_connected_devices, try_except, mbind, run_adb_devices, ret, logger, emit.
  cbn [record adb_devices env].
  destruct (next (adb_devices (env st)) None) as [[r|] rest]; cbn [fst] in A.
  - specialize (A r eq_refl). apply Z.eqb_neq in A. rewrite A. reflexivity.
  - reflexivity.
Qed.

Lemma select_device_head (st : state) (devices : list string) :
  fst (get_connected_devices st) = Ret devices ->
  fst (select_device st) = Ret (hd_error devices).
Proof.
  intros G. unfold select_device, mbind.
  destruct (get_connected_devices st) as [[devs|e] st1]; cbn [fst] in G;
    [|discriminate].
  injection G as ->. destruct devices as [|d [|d' ds]]; reflexivity.
Qed.

(** X9: when [adb devices] cannot be run, or exits with a code other than
    0, [get_connected_devices] returns the empty list and [select_device]
    returns [None]; neither raises, and the object is left as it was. *)
Theorem failed_listing_gives_no_device (st : state) :
  (forall r, devices_answer (env st) = Some r -> returncode r <> 0%Z) ->
  fst (get_connected_devices st) = Ret []
  /\ fst (select_device st) = Ret None
  /\ self (snd (select_device st)) = self st.
Proof.
  intros A. pose proof (get_connected_devices_failed st A) as G.
  split; [exact G|]. split.
  - exact (select_device_head st [] G).
  - apply env_only_select_device.
Qed.

Lemma failed_listing_gives_no_device_witness :
  fst (select_device (mkState sample_bridge quiet)) = Ret None.
Proof.
  apply (failed_listing_gives_no_device (mkState sample_bridge quiet)).
  intros r H. discriminate H.
Defined.

(** X10: the first line of the output is skipped whatever it says: an
    output that, stripped, is a single line yields no device, even when that
    line names one. *)
Theorem single_line_listing_gives_no_device (st : state) (r : completed) :
  devices_answer (env st) = Some r ->
  count newline (strip (stdout r)) = 0 ->
  fst (get_connected_devices st) = Ret []
  /\ fst (select_device st) = Ret None.
Proof.
  intros A C.
  assert (G : fst (get_connected_devices st) = Ret []).
  { destruct (Z.eqb (returncode r) 0) eqn:Z.
    - apply Z.eqb_eq in Z. rewrite (get_connected_devices_ok st r A Z).
      unfold split. destruct (String.length (strip (stdout r))); cbn [split_max].
      + reflexivity.
      + apply cut_none in C. now rewrite C.
    - apply get_connected_devices_failed. intros r' A'.
      assert (r' = r) as -> by congruence. now apply Z.eqb_neq. }
  split; [exact G | exact (select_device_head st [] G)].
Qed.

Lemma single_line_listing_gives_no_device_witness :
  fst (get_connected_devices
         (mkState sample_bridge
            (mkEnv [] [] [] [Some (mkCompleted 0 (device_line "emulator-5554") "")]
                   [] [] [] [] 0 [])))
    = Ret []
  /\ fst (select_device
            (mkState sample_bridge
               (mkEnv [] [] [] [Some (mkCompleted 0 (device_line "emulator-5554") "")]
                      [] [] [] [] 0 [])))
     = Ret None.
Proof.
  apply (single_line_listing_gives_no_device _
           (mkCompleted 0 (device_line "emulator-5554") "")); reflexivity.
Defined.

Lemma device_of_line_some (line d : string) :
  device_of_line line = Some d ->
  exists more, split tab line = d :: "device" :: more.
Proof.
  unfold device_of_line. destruct (truthy (strip line)); [|discriminate].
  destruct (split tab line) as [|serial [|status more]]; try discriminate.
  destruct (String.eqb status "device") eqn:E; [|discriminate].
  apply String.eqb_eq in E. subst status. intros H. injection H as ->.
  now exists more.
Qed.

Lemma In_devices_of_lines (lines : list string) (d : string) :
  In d (devices_of_lines lines) ->
  exists line, In line lines /\ device_of_line line = Some d.
Proof.
  induction lines as [|l lines IH]; cbn; [tauto|].
  destruct (device_of_line l) as [d'|] eqn:E.
  - intros [<-|I].
    + exists l. auto.
    + destruct (IH I) as (line & I' & H). exists line. auto.
  - intros I. destruct (IH I) as (line & I' & H). exists line. auto.
Qed.

(** X11: [select_device] never raises and leaves the object alone; it
    returns the first device that [get_connected_devices] returns, [None]
    when there is none; and every device returned comes from a line, after
    the first, whose second tab-separated field is exactly [device]. *)
Theorem select_device_takes_first (st : state) :
  exists devices,
    fst (get_connected_devices st) = Ret devices
    /\ fst (select_device st) = Ret (hd_error devices)
    /\ self (snd (select_device st)) = self st
    /\ forall d, In d devices ->
         exists r line more,
           devices_answer (env st) = Some r
           /\ In line (tl (split newline (strip (stdout r))))
           /\ split tab line = d :: "device" :: more.
Proof.
  destruct (devices_answer (env st)) as [r|] eqn:A.
  - destruct (Z.eqb (returncode r) 0) eqn:Z.
    + apply Z.eqb_eq in Z. pose proof (get_connected_devices_ok st r A Z) as G.
      eexists. split; [exact G|]. split; [exact (select_device_head st _ G)|].
      split; [apply env_only_select_device|].
      intros d I. apply In_devices_of_lines in I. destruct I as (line & I & D).
      apply device_of_line_some in D. destruct D as [more D].
      now exists r, line, more.
    + assert (G : fst (get_connected_devices st) = Ret []).
      { apply get_connected_devices_failed. intros r' A'.
        assert (r' = r) as -> by congruence. now apply Z.eqb_neq. }
      exists []. split; [exact G|]. split; [exact (select_device_head st _ G)|].
      split; [apply env_only_select_device | intros d []].
  - assert (G : fst (get_connected_devices st) = Ret []).
    { apply get_connected_devices_failed. intros r' A'. congruence. }
    exists []. split; [exact G|]. split; [exact (select_device_head st _ G)|].
    split; [apply env_only_select_device | intros d []].
Qed.

End Devices.

(** ** The child process *)

Section ChildProcess.

(** X12: [start_adb_logcat] never raises; it spawns one process, with the
    command [adb -s <device> logcat *:E -v threadtime]; when the spawn
    succeeds it stores the handle in the object and returns it, when it fails
    it returns [None] and leaves the object as it was. *)
Theorem start_adb_logcat_spawns_once (st : state) (device : string) :
  let st1 := snd (start_adb_logcat device st) in
  fst (start_adb_logcat device st) = Ret (spawn_answer (env st))
  /\ spawned (trace (env st1)) = logcat_command device :: spawned (trace (env st))
  /\ self st1 = match spawn_answer (env st) with
                | Some p => set_adb_process (Some p) (self st)
                | None => self st
                end.
Proof.
  destruct st as [b e]. destruct e as [cs ss cl ad po ao wa ck idl tr].
  unfold spawn_answer, start_adb_logcat, try_except, mbind, subprocess_Popen, update,
    logger, emit, ret, next, record, logcat_command.
  cbn -[append join]. destruct po as [|[q|] po]; cbn -[append join]; auto.
Qed.

(** X13: with a process handle set, [stop_adb_logcat] never raises: it
    asks the process to terminate and waits; it kills the process exactly
    when the wait times out; in both cases the handle is reset to [None]. *)
Theorem stop_adb_logcat_kills_on_timeout (st : state) (p : proc) :
  adb_process (self st) = Some p ->
  let st1 := snd (stop_adb_logcat st) in
  fst (stop_adb_logcat st) = Ret tt
  /\ self st1 = set_adb_process None (self st)
  /\ trace (env st1) =
       ((if wait_answer (env st)
         then [Log INFO "ADB logcat process stopped"; Wait p; Terminate p]
         else [Log WARNING "ADB logcat process killed"; Kill p; Wait p; Terminate p])
        ++ trace (env st))%list.
Proof.
  intros H. destruct st as [b e]. cbn [self] in H.
  destruct e as [cs ss cl ad po ao wa ck idl tr].
  unfold wait_answer, stop_adb_logcat, try_finally, try_except, mbind, get_self,
    proc_wait, update, logger, emit, next, record.
  cbn [self env]. rewrite H. cbn [waits trace].
  destruct wa as [|[] wa]; cbn; auto.
Qed.

Lemma stop_adb_logcat_kills_on_timeout_witness :
  fst (stop_adb_logcat active_session) = Ret tt.
Proof.
  apply (stop_adb_logcat_kills_on_timeout active_session 7). reflexivity.
Defined.



(** X15: whatever the child process does - it exits, or a read fails -
    [monitor_adb_logcat] returns without raising, with the process handle
    reset to [None] and the monitoring flag as it found it: the loop's end
    does not make the session idle. *)
Theorem monitor_adb_logcat_keeps_flag (st : state) :
  fst (monitor_adb_logcat st) = Ret tt
  /\ adb_process (self (snd (monitor_adb_logcat st))) = None
  /\ is_monitoring (self (snd (monitor_adb_logcat st))) = is_monitoring (self st).
Proof.
  pose proof (monitor_adb_logcat_triple (is_monitoring (self st))
                (adb_process (self st)) st (conj eq_refl eq_refl)) as T.
  destruct (monitor_adb_logcat st) as [[[]|e] st1]; [|destruct T].
  destruct T as [T1 T2]. auto.
Qed.

End ChildProcess.

(** ** The monitoring loop and the start of a session *)

Section Loop.

Lemma reading_hd (e : Env) : reading e = hd 0%float (clock e).
Proof. unfold reading, next. destruct (clock e); reflexivity. Qed.

(** One line of the loop on a connected object: the event it carries, if
    any, is stamped with the next reading and handed to the transport. *)
Lemma handle_line_connected (st : state) (c : conn) (line : string) :
  desktop_connection (self st) = Some c ->
  exists st1,
    handle_line line st = (Ret tt, st1)
    /\ self st1 = self st
    /\ sent (trace (env st1)) =
         (rev (stamp_all c (clock (env st)) (classify_all (self st) [line]))
          ++ sent (trace (env st)))%list
    /\ clock (env st1) =
         skipn (List.length (classify_all (self st) [line])) (clock (env st)).
Proof.
  intros C. cbn [classify_all].
  destruct (truthy line) eqn:T.
  - destruct (parse_log_line_returns (self st) line) as [[[|kv ev]|] E]; rewrite E.
    + exists st. unfold handle_line. rewrite T.
      unfold mbind, get_self, lift. rewrite E. repeat split.
    + destruct (handle_line_event st line (kv :: ev) E) as [msg H].
      destruct (send_with_connection
                  (mkState (self st) (record (Log INFO msg) (env st))) c (kv :: ev) C)
        as (lvl & m & S & _).
      rewrite S in H. eexists. split; [exact H|].
      cbn [self env trace sent clock record stamp_all rev List.length skipn app].
      rewrite reading_hd. cbn [clock record].
      split; [reflexivity|]. split; [reflexivity|].
      destruct (clock (env st)); reflexivity.
    + exists st. unfold handle_line. rewrite T.
      unfold mbind, get_self, lift. rewrite E. repeat split.
  - exists st. unfold handle_line. rewrite T. repeat split.
Qed.

Lemma stamp_all_app (c : conn) (readings : list float) (a b : list Event) :
  stamp_all c readings (a ++ b)%list =
    (stamp_all c readings a ++ stamp_all c (skipn (List.length a) readings) b)%list.
Proof.
  revert readings. induction a as [|ev a IH]; intros readings; [reflexivity|].
  cbn [app stamp_all List.length]. rewrite IH. destruct readings; cbn [tl skipn].
  - now rewrite skipn_nil.
  - reflexivity.
Qed.

Lemma classify_all_cons (b : ADBBridge) (line : string) (lines : list string) :
  classify_all b (line :: lines) = (classify_all b [line] ++ classify_all b lines)%list.
Proof.
  cbn [classify_all].
  destruct (if truthy line then parse_log_line b line else Ret None)
    as [[[|kv ev]|]|e]; reflexivity.
Qed.

Lemma monitor_loop_nil (st : state) : monitor_loop (map Line []) st = (Ret tt, st).
Proof.
  cbn. unfold mbind, get_self. destruct (negb (is_monitoring (self st))); reflexivity.
Qed.

(** One turn of the loop on a line that [handle_line] gets through. *)
Lemma monitor_loop_step (st st2 : state) (line : string) (lines : list string) :
  is_monitoring (self st) = true ->
  handle_line line st = (Ret tt, st2) ->
  monitor_loop (map Line (line :: lines)) st =
    monitor_loop (map Line lines) (mkState (self st2) (record Sleep (env st2))).
Proof.
  intros M H. cbn [map monitor_loop].
  unfold mbind at 1. unfold get_self at 1. rewrite M. cbn [negb].
  unfold mbind at 1. unfold ret at 1.
  unfold mbind at 1. rewrite H.
  unfold mbind at 1. unfold emit at 1. reflexivity.
Qed.

(** X16: while the session is active and a connection handle is set, the
    loop sends exactly the events that [parse_log_line] detects in the lines
    read, once each and in the order read, every event stamped with its own
    reading of the clock; it leaves the object as it was. *)
Theorem monitor_loop_sends_in_order (lines : list string) (st : state) (c : conn) :
  is_monitoring (self st) = true ->
  desktop_connection (self st) = Some c ->
  let st1 := snd (monitor_loop (map Line lines) st) in
  fst (monitor_loop (map Line lines) st) = Ret tt
  /\ self st1 = self st
  /\ sent (trace (env st1)) =
       (rev (stamp_all c (clock (env st)) (classify_all (self st) lines))
        ++ sent (trace (env st)))%list.
Proof.
  revert st. induction lines as [|line lines IH]; intros st M C; cbv zeta.
  - rewrite monitor_loop_nil. cbn. auto.
  - destruct (handle_line_connected st c line C) as (st2 & H & S2 & T2 & K2).
    rewrite (monitor_loop_step st st2 line lines M H).
    set (st3 := mkState (self st2) (record Sleep (env st2))).
    assert (M3 : is_monitoring (self st3) = true) by (cbn; now rewrite S2).
    assert (C3 : desktop_connection (self st3) = Some c) by (cbn; now rewrite S2).
    destruct (IH st3 M3 C3) as (R & S & T).
    split; [exact R|]. split; [rewrite S; cbn; exact S2|].
    rewrite T. unfold st3. cbn [self env trace sent clock record].
    rewrite T2, K2, S2, (classify_all_cons (self st) line lines), stamp_all_app.
    rewrite rev_app_distr, app_assoc. reflexivity.
Qed.

Lemma monitor_loop_sends_in_order_witness :
  map (fun cp => field "error_type" (snd cp))
      (sent (trace (env (snd (monitor_loop (map Line sample_lines) monitoring_session)))))
    = [Some (VStr "permission_denied"); Some (VStr "fatal_exception")]
  /\ sent (trace (env (snd (monitor_loop (map Line sample_lines) monitoring_session))))
     = (rev (stamp_all 1 (clock (env monitoring_session))
               (classify_all (self monitoring_session) sample_lines))
        ++ sent (trace (env monitoring_session)))%list.
Proof.
  split; [vm_compute; reflexivity|].
  exact (proj2 (proj2 (monitor_loop_sends_in_order sample_lines monitoring_session 1
                         eq_refl eq_refl))).
Defined.

(** One line of the loop on an object without connection handle: nothing
    is handed to the transport. *)
Lemma handle_line_unconnected (st : state) (line : string) :
  desktop_connection (self st) = None ->
  exists st1,
    handle_line line st = (Ret tt, st1)
    /\ self st1 = self st
    /\ sent (trace (env st1)) = sent (trace (env st))
    /\ warnings (trace (env st1)) =
         (repeat "No connection to desktop, cannot send error"
                 (List.length (classify_all (self st) [line]))
          ++ warnings (trace (env st)))%list.
Proof.
  intros C. cbn [classify_all].
  destruct (truthy line) eqn:T.
  - destruct (parse_log_line_returns (self st) line) as [[[|kv ev]|] E]; rewrite E.
    + exists st. unfold handle_line. rewrite T.
      unfold mbind, get_self, lift. rewrite E. repeat split.
    + destruct (handle_line_event st line (kv :: ev) E) as [msg H].
      rewrite (send_without_connection _ (kv :: ev)) in H by exact C.
      eexists. split; [exact H|]. repeat split.
    + exists st. unfold handle_line. rewrite T.
      unfold mbind, get_self, lift. rewrite E. repeat split.
  - exists st. unfold handle_line. rewrite T. repeat split.
Qed.

(** X17: while no connection handle is set, the loop hands nothing to the
    transport: every detected event is dropped, each with one warning. *)
Theorem monitor_loop_drops_without_connection (lines : list string) (st : state) :
  is_monitoring (self st) = true ->
  desktop_connection (self st) = None ->
  let st1 := snd (monitor_loop (map Line lines) st) in
  fst (monitor_loop (map Line lines) st) = Ret tt
  /\ sent (trace (env st1)) = sent (trace (env st))
  /\ warnings (trace (env st1)) =
       (repeat "No connection to desktop, cannot send error"
               (List.length (classify_all (self st) lines))
        ++ warnings (trace (env st)))%list.
Proof.
  revert st. induction lines as [|line lines IH]; intros st M C; cbv zeta.
  - rewrite monitor_loop_nil. cbn. auto.
  - destruct (handle_line_unconnected st line C) as (st2 & H & S2 & T2 & W2).
    rewrite (monitor_loop_step st st2 line lines M H).
    set (st3 := mkState (self st2) (record Sleep (env st2))).
    assert (M3 : is_monitoring (self st3) = true) by (cbn; now rewrite S2).
    assert (C3 : desktop_connection (self st3) = None) by (cbn; now rewrite S2).
    destruct (IH st3 M3 C3) as (R & S & W).
    split; [exact R|]. split; [rewrite S; cbn; exact T2|].
    rewrite W. unfold st3. cbn [self env trace warnings record].
    rewrite W2, S2, (classify_all_cons (self st) line lines), length_app.
    rewrite app_assoc, <- repeat_app. now rewrite Nat.add_comm.
Qed.

Lemma monitor_loop_drops_without_connection_witness :
  fst (monitor_loop
         (map Line ["01-01 00:00:00.000 1-1/1 E AndroidRuntime: FATAL EXCEPTION: main"])
         (mkState (set_is_monitoring true sample_bridge) quiet)) = Ret tt.
Proof.
  apply (monitor_loop_drops_without_connection
           ["01-01 00:00:00.000 1-1/1 E AndroidRuntime: FATAL EXCEPTION: main"]
           (mkState (set_is_monitoring true sample_bridge) quiet)); reflexivity.
Defined.

(** X18: when the desktop cannot be reached, [start_monitoring] returns
    without raising and leaves the object as it was - idle, no connection
    handle; it writes the two error records and makes no other call: no
    device is looked up, no process started, nothing sent. *)
Theorem connect_failure_stays_idle (st : state) :
  is_monitoring (self st) = false ->
  connect_answer (env st) = None ->
  let st1 := snd (start_monitoring st) in
  fst (start_monitoring st) = Ret tt
  /\ self st1 = self st
  /\ trace (env st1) =
       Log ERROR "Failed to start ADB Bridge: connect failed"
         :: Log ERROR "Failed to connect to OraFlow Desktop: connect failed"
         :: WsConnect (desktop_ws_uri (self st))
         :: trace (env st).
Proof.
  intros M A. destruct st as [b e]. cbn [self env] in *.
  destruct b as [port uri dc mon dev ap eps pps].
  destruct e as [cs ss cl ad po ao wa ck idl tr].
  cbn [is_monitoring] in M. subst mon.
  unfold connect_answer, next in A. cbn [ws_connects] in A.
  destruct cs as [|[c|] cs]; [|discriminate A|]; cbv; auto.
Qed.

Lemma connect_failure_stays_idle_witness :
  self (snd (start_monitoring (mkState sample_bridge quiet))) = sample_bridge.
Proof.
  apply (connect_failure_stays_idle (mkState sample_bridge quiet)); reflexivity.
Defined.

End Loop.

(** ** The connection to the desktop *)

Section Connection.


(** X22: the rule, the permission, the package name, the message and the
    severity of an event depend on the sixth part of the line alone: two
    lines, on objects with the same tables, with the same sixth part give
    events that agree on these fields. *)
Theorem message_alone_decides
    (b b' : ADBBridge) (line line' message : string) (ev ev' : Event) :
  error_patterns b' = error_patterns b ->
  permission_patterns b' = permission_patterns b ->
  parseable line message ->
  parseable line' message ->
  parse_log_line b line = Ret (Some ev) ->
  parse_log_line b' line' = Ret (Some ev') ->
  forall k,
    In k ["type"; "error_type"; "permission_type"; "package_name"; "message";
          "severity"] ->
    field k ev' = field k ev.
Proof.
  intros Ee Ep (Ht & p0 & p1 & p2 & p3 & p4 & Hs)
         (Ht' & q0 & q1 & q2 & q3 & q4 & Hs') H H' k I.
  pose proof (parse_log_line_parseable b line message
                (conj Ht (ex_intro _ p0 (ex_intro _ p1 (ex_intro _ p2
                   (ex_intro _ p3 (ex_intro _ p4 Hs))))))) as Q.
  destruct (first_match (error_patterns b) message) as [name|] eqn:F; [|congruence].
  destruct (truthy name) eqn:T; [|congruence]. clear Q.
  assert (F' : first_match (error_patterns b') message = Some name) by now rewrite Ee.
  rewrite (parse_log_line_event b line p0 p1 p2 p3 p4 message name Ht Hs F T) in H.
  rewrite (parse_log_line_event b' line' q0 q1 q2 q3 q4 message name Ht' Hs' F' T) in H'.
  injection H as <-. injection H' as <-.
  unfold event_of, permission_of. rewrite Ep.
  cbn in I. repeat (destruct I as [<-|I]; [reflexivity|]). destruct I.
Qed.

Lemma message_alone_decides_witness :
  field "severity"
    (event_on "02-02 11:11:11.111 2-2/2 W Other: FATAL EXCEPTION: main")
  = field "severity"
      (event_on "01-01 00:00:00.000 1-1/1 E AndroidRuntime: FATAL EXCEPTION: main").
Proof.
  apply (message_alone_decides sample_bridge sample_bridge
           "01-01 00:00:00.000 1-1/1 E AndroidRuntime: FATAL EXCEPTION: main"
           "02-02 11:11:11.111 2-2/2 W Other: FATAL EXCEPTION: main"
           "FATAL EXCEPTION: main").
  - reflexivity.
  - reflexivity.
  - split; [vm_compute; reflexivity|]. do 5 eexists. vm_compute. reflexivity.
  - split; [vm_compute; reflexivity|]. do 5 eexists. vm_compute. reflexivity.
  - vm_compute. reflexivity.
  - vm_compute. reflexivity.
  - cbn. tauto.
Defined.

End Connection.
